(** * Connection details of composite resources

    A shallow embedding of
    [internal/controller/apiextensions/composite/connection.go]:
    the publisher and fetcher chains, the secret-store backed publisher and
    fetcher, and the configurator that gives a composite resource its
    default publish destination.

    Go maps are finite maps ([gmap]) under an [option] whose [None] is the
    nil map; byte slices are lists of bytes under an [option] whose [None]
    is the nil slice; a Go [error] is an [option] whose [None] is nil.
    Calls to collaborators (the chained publishers and fetchers, the secret
    store, the object client) thread an abstract world through a small
    monad whose second outcome is a panic. *)

From Stdlib Require Import Strings.String Strings.Byte.
From stdpp Require Import base option list strings gmap fin_maps.

Local Open Scope string_scope.

(** ** Calls to collaborators *)

Inductive result (World A : Type) : Type :=
| Panic
| Ok (a : A) (w : World).

Arguments Panic {World A}.
Arguments Ok {World A} a w.

Definition M (World A : Type) : Type := World -> result World A.

Definition ret {World A} (a : A) : M World A := fun w => Ok a w.

Definition bind {World A B} (m : M World A) (k : A -> M World B) : M World B :=
  fun w => match m w with
           | Panic => Panic
           | Ok a w' => k a w'
           end.

Definition panic {World A} : M World A := fun _ => Panic.

Declare Scope call_scope.
Delimit Scope call_scope with call.
Notation "'call' x <- m 'then' k" := (bind m (fun x => k))
  (at level 10, x pattern, m at level 100, k at level 200, only parsing)
  : call_scope.

(** [calls ms w outs w'] : calling [ms] one after the other from world [w]
    returns [outs], in this order, and leaves world [w']. *)
Inductive calls {World A : Type} :
  list (M World A) -> World -> list A -> World -> Prop :=
| calls_nil w : calls [] w [] w
| calls_cons m ms w a w1 outs w2 :
    m w = Ok a w1 -> calls ms w1 outs w2 -> calls (m :: ms) w (a :: outs) w2.

(** ** Go maps and slices *)

(** A [[]byte]; [None] is the nil slice, [Some []] the empty one. *)
Definition bytes : Type := option (list byte).

Definition bytes_of (s : string) : bytes := Some (list_byte_of_string s).

Module gomap.
Section gomap.
Context {V : Type}.

(** [m[k]] with the zero value [z] for a key that is absent, or a nil map. *)
Definition index (z : V) (m : option (gmap string V)) (k : string) : V :=
  match m with
  | None => z
  | Some m => default z (m !! k)
  end.

(** [v, ok := m[k]], the read that tells an absent key from a zero value. *)
Definition get (m : option (gmap string V)) (k : string) : option V :=
  match m with
  | None => None
  | Some m => m !! k
  end.

(** [for k, v := range m { acc = body k v acc }]; a nil map has no
    entries. *)
Definition range {B : Type} (m : option (gmap string V))
    (body : string -> V -> B -> B) (acc : B) : B :=
  match m with
  | None => acc
  | Some m => map_fold body acc m
  end.

End gomap.
End gomap.

(** ** Package [xpv1] (crossplane-runtime/apis/common/v1) *)

Module xpv1.

Record Reference : Type := { Reference_Name : string }.

Record PublishConnectionDetailsTo : Type := {
  Name : string;
  SecretStoreConfigRef : option Reference
}.

End xpv1.

(** ** Package [schema] (k8s.io/apimachinery) *)

Module schema.

Record GroupVersionKind : Type := {
  Group : string;
  Version : string;
  Kind : string
}.

End schema.

(** ** Package [resource] (crossplane-runtime/pkg/resource) *)

Module resource.

(** The methods of a [ConnectionSecretOwner] this file calls. *)
Record ConnectionSecretOwner : Type := {
  cso_UID : string;
  GetPublishConnectionDetailsTo : option xpv1.PublishConnectionDetailsTo
}.

(** A [Composed] is an interface value: its dynamic type either has the
    methods of a [ConnectionSecretOwner] or lacks some of them. *)
Inductive Composed : Type :=
| ComposedOwner (so : ConnectionSecretOwner)
| ComposedOther (uid : string).

(** The state of a [Composite] this file reads and writes. *)
Record Composite : Type := {
  GetObjectKind : schema.GroupVersionKind;
  GetUID : string;
  Composite_GetPublishConnectionDetailsTo :
    option xpv1.PublishConnectionDetailsTo
}.

Definition SetPublishConnectionDetailsTo (cp : Composite)
    (r : option xpv1.PublishConnectionDetailsTo) : Composite :=
  {| GetObjectKind := GetObjectKind cp;
     GetUID := GetUID cp;
     Composite_GetPublishConnectionDetailsTo := r |}.

End resource.

(** ** Package [v1] (apis/apiextensions/v1) *)

Module v1.

(** Modelled from the spec: the declaration of [ConnectionDetailType] is
    not in this file; the spec gives a declaration the discriminated types
    from-secret-key, from-field-path, from-value and unknown. *)
Inductive ConnectionDetailType : Type :=
| ConnectionDetailTypeFromConnectionSecretKey
| ConnectionDetailTypeFromFieldPath
| ConnectionDetailTypeFromValue
| ConnectionDetailTypeUnknown.

(** The fields of a [ConnectionDetail] that this file reads ([Name] and
    [FromConnectionSecretKey], both pointers), and the declared type, which
    [connectionDetailType] classifies. *)
Record ConnectionDetail : Type := {
  Name : option string;
  Type_ : option ConnectionDetailType;
  FromConnectionSecretKey : option string
}.

Record ComposedTemplate : Type := {
  ConnectionDetails : list ConnectionDetail
}.

Record TypeReference : Type := {
  APIVersion : string;
  Kind : string
}.

Record CompositionSpec : Type := {
  CompositeTypeRef : TypeReference;
  PublishConnectionDetailsWithStoreConfig : option string
}.

Record Composition : Type := { Spec : CompositionSpec }.

End v1.

(** ** Package [errors] (github.com/pkg/errors) *)

Module errors.

Inductive t : Type :=
| New (message : string)
| Errorf (format : string) (arg : v1.ConnectionDetailType)
| Wrapped (cause : t) (message : string).

(** [errors.Wrap] returns nil when the wrapped error is nil. *)
Definition Wrap (err : option t) (message : string) : option t :=
  match err with
  | None => None
  | Some e => Some (Wrapped e message)
  end.

End errors.

Abbreviation error := (option errors.t).

(** No call of [outs] returned an error. *)
Definition no_error {A : Type} (outs : list (A * error)) : Prop :=
  Forall (fun out => out.2 = None) outs.

(** ** Package [managed] (crossplane-runtime/pkg/reconciler/managed) *)

Module managed.

(** [managed.ConnectionDetails] is [map[string][]byte]. *)
Abbreviation ConnectionDetails := (option (gmap string bytes)).

Section interfaces.
Context {World Ctx : Type}.

Record ConnectionPublisher : Type := {
  PublishConnection :
    Ctx -> resource.ConnectionSecretOwner -> ConnectionDetails ->
    M World error
}.

Record ConnectionDetailsFetcher : Type := {
  FetchConnection :
    Ctx -> resource.ConnectionSecretOwner ->
    M World (ConnectionDetails * error)
}.

End interfaces.

Arguments ConnectionPublisher : clear implicits.
Arguments ConnectionDetailsFetcher : clear implicits.

End managed.

(** ** Package [client] (sigs.k8s.io/controller-runtime) *)

Module client.
Section interfaces.
Context {World Ctx : Type}.

(** [Update] is handed a pointer to the object: it returns the object as
    the call leaves it, next to its error. *)
Record Client : Type := {
  Update : Ctx -> resource.Composite -> M World (error * resource.Composite)
}.

End interfaces.

Arguments Client : clear implicits.

End client.

(** ** Package [composite] *)

(** Modelled from the spec: the error strings are declared elsewhere in the
    package; the spec names them as the publish failure, the fetch failure,
    the missing key reference, the composition mismatch and the persistence
    failure. No statement below depends on their text. *)
Definition errPublish : string := "publish failed".
Definition errFetchSecret : string := "fetch failed".
Definition errFmtConnDetailKey : string := "missing key reference".
Definition errCompositionNotCompatible : string := "composition mismatch".
Definition errUpdateComposite : string := "persistence failure".

Section interfaces.
Context {World Ctx : Type}.

(** A [ConnectionPublisher] publishes the supplied connection details for
    the supplied resource. *)
Record ConnectionPublisher : Type := {
  PublishConnection :
    Ctx -> resource.ConnectionSecretOwner -> managed.ConnectionDetails ->
    M World (bool * error)
}.

(** A [ConnectionDetailsFetcher] fetches the connection details of a
    composed resource. *)
Record ConnectionDetailsFetcher : Type := {
  FetchConnectionDetails :
    Ctx -> resource.Composed -> v1.ComposedTemplate ->
    M World (managed.ConnectionDetails * error)
}.

End interfaces.

Arguments ConnectionPublisher : clear implicits.
Arguments ConnectionDetailsFetcher : clear implicits.

Module ConnectionPublisherChain.
Section ConnectionPublisherChain.
Context {World Ctx : Type}.
Local Open Scope call_scope.

Definition t : Type := list (ConnectionPublisher World Ctx).

(** The [for _, p := range pc] loop, from the value of [published] at the
    head of an iteration. *)
Fixpoint loop (pc : t) (ctx : Ctx) (o : resource.ConnectionSecretOwner)
    (c : managed.ConnectionDetails) (published : bool)
    : M World (bool * error) :=
  match pc with
  | [] => ret (published, None)
  | p :: pc' =>
      call (pb, err) <- PublishConnection p ctx o c then
      let published := if pb then true else published in
      match err with
      | Some e => ret (published, Some e)
      | None => loop pc' ctx o c published
      end
  end.

Definition PublishConnection (pc : t) (ctx : Ctx)
    (o : resource.ConnectionSecretOwner) (c : managed.ConnectionDetails)
    : M World (bool * error) :=
  loop pc ctx o c false.

End ConnectionPublisherChain.
End ConnectionPublisherChain.

Module ConnectionDetailsFetcherChain.
Section ConnectionDetailsFetcherChain.
Context {World Ctx : Type}.
Local Open Scope call_scope.

Definition t : Type := list (ConnectionDetailsFetcher World Ctx).

(** [for k, v := range conn { all[k] = v }]. *)
Definition merge (conn : managed.ConnectionDetails)
    (all : gmap string bytes) : gmap string bytes :=
  gomap.range conn (fun k v all => <[k:=v]> all) all.

(** The value of [all] once the mappings [Ms] have been merged into it,
    first to last. *)
Definition merged (Ms : list managed.ConnectionDetails)
    (all : gmap string bytes) : gmap string bytes :=
  foldl (fun all conn => merge conn all) all Ms.

(** The [for _, p := range fc] loop, from the value of [all] at the head
    of an iteration. *)
Fixpoint loop (fc : t) (ctx : Ctx) (cd : resource.Composed)
    (tpl : v1.ComposedTemplate) (all : gmap string bytes)
    : M World (managed.ConnectionDetails * error) :=
  match fc with
  | [] => ret (Some all, None)
  | p :: fc' =>
      call (conn, err) <- FetchConnectionDetails p ctx cd tpl then
      match err with
      | Some e => ret (Some all, Some e)
      | None => loop fc' ctx cd tpl (merge conn all)
      end
  end.

Definition FetchConnectionDetails (fc : t) (ctx : Ctx)
    (cd : resource.Composed) (tpl : v1.ComposedTemplate)
    : M World (managed.ConnectionDetails * error) :=
  loop fc ctx cd tpl ∅.

End ConnectionDetailsFetcherChain.
End ConnectionDetailsFetcherChain.

Module SecretStoreConnectionPublisher.
Section SecretStoreConnectionPublisher.
Context {World Ctx : Type}.
Local Open Scope call_scope.

Record t : Type := {
  publisher : managed.ConnectionPublisher World Ctx;
  filter : list string
}.

Definition NewSecretStoreConnectionPublisher
    (p : managed.ConnectionPublisher World Ctx) (filter : list string) : t :=
  {| publisher := p; filter := filter |}.

(** [for _, key := range p.filter { m[key] = true }]. *)
Definition allowed (filter : list string) : gmap string bool :=
  foldl (fun m key => <[key:=true]> m) ∅ filter.

(** [for key, val := range c { if len(m) == 0 || m[key] { data[key] = val } }]. *)
Definition filtered (m : gmap string bool) (c : managed.ConnectionDetails)
    (data : gmap string bytes) : gmap string bytes :=
  gomap.range c
    (fun key val data =>
       if (size m =? 0)%nat || gomap.index false (Some m) key
       then <[key:=val]> data else data)
    data.

Definition PublishConnection (p : t) (ctx : Ctx)
    (o : resource.ConnectionSecretOwner) (c : managed.ConnectionDetails)
    : M World (bool * error) :=
  match resource.GetPublishConnectionDetailsTo o with
  | None => ret (false, None)
  | Some _ =>
      let data : gmap string bytes := ∅ in
      let m := allowed (filter p) in
      let data := filtered m c data in
      call err <- managed.PublishConnection (publisher p) ctx o (Some data) then
      match err with
      | Some e => ret (false, errors.Wrap (Some e) errPublish)
      | None => ret (true, None)
      end
  end.

Definition asConnectionPublisher (p : t) : ConnectionPublisher World Ctx :=
  Build_ConnectionPublisher (PublishConnection p).

End SecretStoreConnectionPublisher.
End SecretStoreConnectionPublisher.

Module SecretStoreConnectionDetailsFetcher.
Section SecretStoreConnectionDetailsFetcher.
Context {World Ctx : Type}.
Local Open Scope call_scope.

(** [connectionDetailType] is declared elsewhere in the package: the
    fetcher is given it, and what follows holds for every classifier. *)
Variable connectionDetailType : v1.ConnectionDetail -> v1.ConnectionDetailType.

Record t : Type := {
  fetcher : managed.ConnectionDetailsFetcher World Ctx
}.

Definition NewSecretStoreConnectionDetailsFetcher
    (f : managed.ConnectionDetailsFetcher World Ctx) : t :=
  {| fetcher := f |}.

(** [x == nil] for a byte slice. *)
Definition is_nil (x : bytes) : bool :=
  match x with
  | None => true
  | Some _ => false
  end.

(** The [for _, d := range t.ConnectionDetails] loop, from the value of
    [conn] at the head of an iteration; [inr] is the early return of an
    error. *)
Fixpoint loop (data : managed.ConnectionDetails)
    (ds : list v1.ConnectionDetail) (conn : gmap string bytes)
    : gmap string bytes + errors.t :=
  match ds with
  | [] => inl conn
  | d :: ds' =>
      let tp := connectionDetailType d in
      match tp with
      | v1.ConnectionDetailTypeFromConnectionSecretKey =>
          match v1.FromConnectionSecretKey d with
          | None => inr (errors.Errorf errFmtConnDetailKey tp)
          | Some from =>
              if match data with None => true | Some _ => false end
                 || is_nil (gomap.index None data from)
              then loop data ds' conn
              else
                let key := from in
                let key := match v1.Name d with
                           | Some name => name
                           | None => key
                           end in
                if negb (key =? "")
                then loop data ds' (<[key := gomap.index None data from]> conn)
                else loop data ds' conn
          end
      | v1.ConnectionDetailTypeFromFieldPath
      | v1.ConnectionDetailTypeFromValue
      | v1.ConnectionDetailTypeUnknown => loop data ds' conn
      end
  end.

Definition FetchConnectionDetails (f : t) (ctx : Ctx)
    (cd : resource.Composed) (tpl : v1.ComposedTemplate)
    : M World (managed.ConnectionDetails * error) :=
  match cd with
  | resource.ComposedOther _ => panic
  | resource.ComposedOwner so =>
      call (data, err) <- managed.FetchConnection (fetcher f) ctx so then
      match err with
      | Some e => ret (None, errors.Wrap (Some e) errFetchSecret)
      | None =>
          let conn : gmap string bytes := ∅ in
          match loop data (v1.ConnectionDetails tpl) conn with
          | inr e => ret (None, Some e)
          | inl conn =>
              if (size conn =? 0)%nat then ret (None, None)
              else ret (Some conn, None)
          end
      end
  end.

Definition asConnectionDetailsFetcher (f : t)
    : ConnectionDetailsFetcher World Ctx :=
  Build_ConnectionDetailsFetcher (FetchConnectionDetails f).

End SecretStoreConnectionDetailsFetcher.
End SecretStoreConnectionDetailsFetcher.

Module ConnectionDetailsConfigurator.
Section ConnectionDetailsConfigurator.
Context {World Ctx : Type}.
Local Open Scope call_scope.

(** [GroupVersionKind.ToAPIVersionAndKind] belongs to apimachinery: the
    configurator is given it, and what follows holds for every such
    function. *)
Variable ToAPIVersionAndKind : schema.GroupVersionKind -> string * string.

Record t : Type := { client : client.Client World Ctx }.

Definition NewConnectionDetailsConfigurator (c : client.Client World Ctx) : t :=
  {| client := c |}.

(** [cp] points to the composite resource: [Configure] returns the
    resource as the call leaves it, next to its error. *)
Definition Configure (c : t) (ctx : Ctx) (cp : resource.Composite)
    (comp : v1.Composition) : M World (error * resource.Composite) :=
  let '(apiVersion, kind) :=
    ToAPIVersionAndKind (resource.GetObjectKind cp) in
  if negb (v1.APIVersion (v1.CompositeTypeRef (v1.Spec comp)) =? apiVersion)
     || negb (v1.Kind (v1.CompositeTypeRef (v1.Spec comp)) =? kind)
  then ret (Some (errors.New errCompositionNotCompatible), cp)
  else
    match resource.Composite_GetPublishConnectionDetailsTo cp,
          v1.PublishConnectionDetailsWithStoreConfig (v1.Spec comp) with
    | Some _, _ | _, None => ret (None, cp)
    | None, Some storeConfig =>
        let cp := resource.SetPublishConnectionDetailsTo cp
          (Some {| xpv1.Name := resource.GetUID cp;
                   xpv1.SecretStoreConfigRef :=
                     Some {| xpv1.Reference_Name := storeConfig |} |}) in
        call (err, cp) <- client.Update (client c) ctx cp then
        ret (errors.Wrap err errUpdateComposite, cp)
    end.

End ConnectionDetailsConfigurator.
End ConnectionDetailsConfigurator.

(** ** Chains as members of chains

    A chain has the method of the interface it chains, so that a chain can
    stand in another chain. *)

Module nested.
Section nested.
Context {World Ctx : Type}.

Definition publisher (pc : ConnectionPublisherChain.t)
    : ConnectionPublisher World Ctx :=
  Build_ConnectionPublisher (ConnectionPublisherChain.PublishConnection pc).

Definition fetcher (fc : ConnectionDetailsFetcherChain.t)
    : ConnectionDetailsFetcher World Ctx :=
  Build_ConnectionDetailsFetcher
    (ConnectionDetailsFetcherChain.FetchConnectionDetails fc).

End nested.
End nested.

(** ** What one declaration does in the loop of the secret store fetcher *)

Module declaration.
Section declaration.
Variable connectionDetailType : v1.ConnectionDetail -> v1.ConnectionDetailType.

(** The key a from-secret-key declaration of source key [from] writes:
    [key := *d.FromConnectionSecretKey; if d.Name != nil { key = *d.Name }]. *)
Definition key (d : v1.ConnectionDetail) (from : string) : string :=
  match v1.Name d with
  | Some name => name
  | None => from
  end.

(** The declarations an iteration passes without a write and without an
    error: those of another type, and the from-secret-key ones whose source
    key has no value in [data] or whose key is empty. *)
Definition skipped (data : managed.ConnectionDetails)
    (d : v1.ConnectionDetail) : bool :=
  match connectionDetailType d with
  | v1.ConnectionDetailTypeFromConnectionSecretKey =>
      match v1.FromConnectionSecretKey d with
      | None => false
      | Some from =>
          SecretStoreConnectionDetailsFetcher.is_nil
            (gomap.index None data from)
          || (key d from =? "")
      end
  | v1.ConnectionDetailTypeFromFieldPath
  | v1.ConnectionDetailTypeFromValue
  | v1.ConnectionDetailTypeUnknown => true
  end.

(** The value of [conn] after the iteration for [d], when the iteration
    returns no error. *)
Definition written (data : managed.ConnectionDetails)
    (d : v1.ConnectionDetail) (conn : gmap string bytes)
    : gmap string bytes :=
  if skipped data d then conn
  else
    match v1.FromConnectionSecretKey d with
    | Some from => <[key d from := gomap.index None data from]> conn
    | None => conn
    end.

End declaration.
End declaration.

(** ** Collaborators to run the code on

    Concrete collaborators, on which the definitions above evaluate. *)

Module schema_impl.

(** [GroupVersionKind.ToAPIVersionAndKind] as apimachinery has it: the
    empty kind gives two empty strings, and the API version is the version
    alone when the group is empty. *)
Definition ToAPIVersionAndKind (gvk : schema.GroupVersionKind)
    : string * string :=
  if (String.length (schema.Group gvk) =? 0)%nat
     && (String.length (schema.Version gvk) =? 0)%nat
     && (String.length (schema.Kind gvk) =? 0)%nat
  then ("", "")
  else
    (if (0 <? String.length (schema.Group gvk))%nat
     then schema.Group gvk ++ "/" ++ schema.Version gvk
     else schema.Version gvk,
     schema.Kind gvk).

End schema_impl.

Module fixtures.

(** A classifier that reads the declared type of a declaration, unknown
    when none is declared. *)
Definition declaredType (d : v1.ConnectionDetail) : v1.ConnectionDetailType :=
  match v1.Type_ d with
  | Some tp => tp
  | None => v1.ConnectionDetailTypeUnknown
  end.

(** A publisher that returns [out] and counts its calls in the world. *)
Definition counting_publisher (out : bool * error)
    : ConnectionPublisher nat unit :=
  {| PublishConnection := fun _ _ _ n => Ok out (S n) |}.

(** A fetcher that returns [out] and counts its calls in the world. *)
Definition counting_fetcher (out : managed.ConnectionDetails * error)
    : ConnectionDetailsFetcher nat unit :=
  {| FetchConnectionDetails := fun _ _ _ n => Ok out (S n) |}.

(** A secret store whose world is the list of the payloads written. *)
Definition recording_store
    : managed.ConnectionPublisher
        (list (resource.ConnectionSecretOwner * managed.ConnectionDetails))
        unit :=
  {| managed.PublishConnection := fun _ o data w => Ok None (w ++ [(o, data)])%list |}.

(** A secret store that reads [out], counting its reads in the world. *)
Definition reading_store (out : managed.ConnectionDetails * error)
    : managed.ConnectionDetailsFetcher nat unit :=
  {| managed.FetchConnection := fun _ _ n => Ok out (S n) |}.

(** An object client whose world is the list of the objects persisted, and
    which leaves the object as it was handed. *)
Definition persisting_client : client.Client (list resource.Composite) unit :=
  {| client.Update := fun _ cp w => Ok (None, cp) (w ++ [cp])%list |}.

Definition destination : xpv1.PublishConnectionDetailsTo :=
  {| xpv1.Name := "secret"; xpv1.SecretStoreConfigRef := None |}.

Definition owner : resource.ConnectionSecretOwner :=
  {| resource.cso_UID := "owner";
     resource.GetPublishConnectionDetailsTo := Some destination |}.

Definition opted_out : resource.ConnectionSecretOwner :=
  {| resource.cso_UID := "owner";
     resource.GetPublishConnectionDetailsTo := None |}.

Definition details : managed.ConnectionDetails :=
  Some (<["host" := bytes_of "h"]>
          (<["port" := bytes_of "5432"]>
             (<["password" := bytes_of "p"]> ∅))).

Definition payload : managed.ConnectionDetails :=
  Some (<["user" := bytes_of "alice"]> (<["pass" := bytes_of "x"]> ∅)).

Definition user_as_username : v1.ConnectionDetail :=
  {| v1.Name := Some "username";
     v1.Type_ := Some v1.ConnectionDetailTypeFromConnectionSecretKey;
     v1.FromConnectionSecretKey := Some "user" |}.

Definition no_source_key : v1.ConnectionDetail :=
  {| v1.Name := Some "username";
     v1.Type_ := Some v1.ConnectionDetailTypeFromConnectionSecretKey;
     v1.FromConnectionSecretKey := None |}.

Definition template (ds : list v1.ConnectionDetail) : v1.ComposedTemplate :=
  {| v1.ConnectionDetails := ds |}.

Definition boom : errors.t := errors.New "boom".

Definition ab : managed.ConnectionDetails :=
  Some (<["a" := bytes_of "1"]> (<["b" := bytes_of "2"]> ∅)).

Definition bc : managed.ConnectionDetails :=
  Some (<["b" := bytes_of "3"]> (<["c" := bytes_of "4"]> ∅)).

Definition composite : resource.Composite :=
  {| resource.GetObjectKind :=
       {| schema.Group := "example.org";
          schema.Version := "v1";
          schema.Kind := "Database" |};
     resource.GetUID := "uid-1";
     resource.Composite_GetPublishConnectionDetailsTo := None |}.

Definition composition (kind : string) : v1.Composition :=
  {| v1.Spec :=
       {| v1.CompositeTypeRef :=
            {| v1.APIVersion := "example.org/v1"; v1.Kind := kind |};
          v1.PublishConnectionDetailsWithStoreConfig := Some "vault" |} |}.

End fixtures.

Module fixtures_more.

(** An object client that fails and leaves the object as it was handed. *)
Definition failing_client (e : errors.t) : client.Client nat unit :=
  {| client.Update := fun _ cp n => Ok (Some e, cp) (S n) |}.

(** A secret store whose writes fail, counting them in the world. *)
Definition failing_store (e : errors.t)
    : managed.ConnectionPublisher nat unit :=
  {| managed.PublishConnection := fun _ _ _ n => Ok (Some e) (S n) |}.

Definition pass_as_username : v1.ConnectionDetail :=
  {| v1.Name := Some "username";
     v1.Type_ := Some v1.ConnectionDetailTypeFromConnectionSecretKey;
     v1.FromConnectionSecretKey := Some "pass" |}.

Definition token_as_username : v1.ConnectionDetail :=
  {| v1.Name := Some "username";
     v1.Type_ := Some v1.ConnectionDetailTypeFromConnectionSecretKey;
     v1.FromConnectionSecretKey := Some "token" |}.

Definition user_unnamed : v1.ConnectionDetail :=
  {| v1.Name := Some "";
     v1.Type_ := Some v1.ConnectionDetailTypeFromConnectionSecretKey;
     v1.FromConnectionSecretKey := Some "user" |}.

Definition user_from_field_path : v1.ConnectionDetail :=
  {| v1.Name := Some "username";
     v1.Type_ := Some v1.ConnectionDetailTypeFromFieldPath;
     v1.FromConnectionSecretKey := Some "user" |}.

Definition composition_without_store : v1.Composition :=
  {| v1.Spec :=
       {| v1.CompositeTypeRef :=
            {| v1.APIVersion := "example.org/v1"; v1.Kind := "Database" |};
          v1.PublishConnectionDetailsWithStoreConfig := None |} |}.

End fixtures_more.

(** * Properties *)

Local Open Scope list_scope.

(** ** Go maps *)

Section gomap_facts.
Context {V : Type}.

(** Assigning every entry of [m] into [acc] leaves the entries of [m] on
    top of those of [acc]. *)
Lemma range_insert (m : gmap string V) (acc : gmap string V) :
  gomap.range (Some m) (fun k v acc => <[k:=v]> acc) acc = m ∪ acc.
Proof.
  unfold gomap.range.
  apply (map_fold_weak_ind (fun r m => r = m ∪ acc)).
  - cbn beta. by rewrite (left_id_L ∅ (∪)).
  - intros i x m' r _ ->. by rewrite insert_union_l.
Qed.

(** Assigning the entries of [m] that pass [keep] into an empty map leaves
    exactly those entries. *)
Lemma range_insert_if (keep : string -> bool) (m : gmap string V) k :
  gomap.range (Some m)
    (fun k v (acc : gmap string V) => if keep k then <[k:=v]> acc else acc)
    ∅ !! k
  = if keep k then m !! k else None.
Proof.
  unfold gomap.range. revert k.
  apply (map_fold_weak_ind
           (fun r m => forall k, r !! k = if keep k then m !! k else None)).
  - intros k. rewrite !lookup_empty. by destruct (keep k).
  - intros i x m' r Hi IH k.
    destruct (decide (i = k)) as [->|Hne].
    + destruct (keep k) eqn:Hk.
      * by rewrite !lookup_insert_eq.
      * by rewrite IH, Hk.
    + destruct (keep i).
      * by rewrite !lookup_insert_ne, IH.
      * by rewrite lookup_insert_ne, IH.
Qed.

End gomap_facts.

(** ** The publisher chain *)

Section publisher_chain.
Context {World Ctx : Type}.
Implicit Types (pc pre post : list (ConnectionPublisher World Ctx)).
Implicit Types (outs : list (bool * error)).

Lemma existsb_reports outs :
  existsb fst outs = true <-> Exists (fun out => out.1 = true) outs.
Proof.
  induction outs as [|[pb err] outs IH]; simpl.
  - split; [done|]. by intros ?%Exists_nil.
  - rewrite Exists_cons, orb_true_iff, IH. done.
Qed.

(** Publishers that return without an error are passed one by one. *)
Lemma publisher_loop_calls pre rest ctx o c published w outs w1 :
  calls ((fun p => PublishConnection p ctx o c) <$> pre) w outs w1 ->
  no_error outs ->
  ConnectionPublisherChain.loop (pre ++ rest) ctx o c published w
  = ConnectionPublisherChain.loop rest ctx o c
      (published || existsb fst outs) w1.
Proof.
  revert published w outs.
  induction pre as [|p pre IH]; intros published w outs Hcalls Hok.
  - inversion Hcalls; subst. simpl. by rewrite orb_false_r.
  - inversion Hcalls as [|? ? ? [pb err] w0 outs' ? Hp Hrest]; subst.
    apply Forall_cons in Hok as [Herr Hok]. simpl in Herr. subst err.
    simpl. unfold bind at 1. rewrite Hp.
    rewrite (IH _ _ _ Hrest Hok).
    f_equal. destruct pb, published; done.
Qed.

(** C6. When no chained publisher returns an error, the chain returns
    [published = true] exactly when some publisher reported [true], and no
    error. When the publishers before [p] return no error and [p] returns
    the error [e], the chain returns [e] with the value of [published]
    gathered up to and including [p], in the world [p] left: the publishers
    after [p] are not called and what the earlier ones did stays done. *)
Theorem publisher_chain_published pre p post ctx o c w outs w1 :
  calls ((fun p => PublishConnection p ctx o c) <$> pre) w outs w1 ->
  no_error outs ->
  (exists published,
      ConnectionPublisherChain.PublishConnection pre ctx o c w
      = Ok (published, None) w1
      /\ (published = true <-> Exists (fun out => out.1 = true) outs))
  /\ (forall pb e w2,
        PublishConnection p ctx o c w1 = Ok (pb, Some e) w2 ->
        exists published,
          ConnectionPublisherChain.PublishConnection (pre ++ p :: post) ctx o c w
          = Ok (published, Some e) w2
          /\ (published = true <->
                Exists (fun out => out.1 = true) outs \/ pb = true)).
Proof.
  intros Hcalls Hok. unfold ConnectionPublisherChain.PublishConnection. split.
  - exists (existsb fst outs). split; [|apply existsb_reports].
    rewrite <- (app_nil_r pre) at 1.
    by rewrite (publisher_loop_calls _ _ _ _ _ _ _ _ _ Hcalls Hok).
  - intros pb e w2 Hp. exists (existsb fst outs || pb). split.
    + rewrite (publisher_loop_calls _ _ _ _ _ _ _ _ _ Hcalls Hok).
      simpl. unfold bind. rewrite Hp. unfold ret.
      by destruct pb, (existsb fst outs).
    + by rewrite orb_true_iff, existsb_reports.
Qed.

End publisher_chain.

(** ** The fetcher chain *)

Section fetcher_chain.
Context {World Ctx : Type}.
Implicit Types (fc pre post : list (ConnectionDetailsFetcher World Ctx)).
Implicit Types (outs : list (managed.ConnectionDetails * error)).
Implicit Types (all : gmap string bytes).

Lemma merge_lookup conn all k :
  ConnectionDetailsFetcherChain.merge conn all !! k
  = match gomap.get conn k with
    | Some v => Some v
    | None => all !! k
    end.
Proof.
  unfold ConnectionDetailsFetcherChain.merge.
  destruct conn as [m|]; [|done].
  rewrite range_insert, lookup_union. simpl.
  destruct (m !! k), (all !! k); done.
Qed.

Lemma merged_lookup_none Ms all k :
  (forall i M, Ms !! i = Some M -> gomap.get M k = None) ->
  ConnectionDetailsFetcherChain.merged Ms all !! k = all !! k.
Proof.
  revert all. induction Ms as [|M0 Ms IH]; intros all Hnone; [done|].
  simpl. rewrite IH.
  - rewrite merge_lookup, (Hnone 0 M0); done.
  - intros i M Hi. by apply (Hnone (S i)).
Qed.

Lemma merged_lookup_last Ms all k i M v :
  Ms !! i = Some M -> gomap.get M k = Some v ->
  (forall j M', i < j -> Ms !! j = Some M' -> gomap.get M' k = None) ->
  ConnectionDetailsFetcherChain.merged Ms all !! k = Some v.
Proof.
  revert all i. induction Ms as [|M0 Ms IH]; intros all i Hi Hv Hlater.
  - done.
  - destruct i as [|i]; simpl in *.
    + injection Hi as ->.
      rewrite merged_lookup_none.
      * by rewrite merge_lookup, Hv.
      * intros j M' Hj. apply (Hlater (S j)); [lia|done].
    + apply (IH _ i); [done|done|].
      intros j M' Hij Hj. apply (Hlater (S j)); [lia|done].
Qed.

(** Fetchers that return without an error are passed one by one, each
    mapping merged into [all]. *)
Lemma fetcher_loop_calls pre rest ctx cd tpl all w outs w1 :
  calls ((fun p => FetchConnectionDetails p ctx cd tpl) <$> pre) w outs w1 ->
  no_error outs ->
  ConnectionDetailsFetcherChain.loop (pre ++ rest) ctx cd tpl all w
  = ConnectionDetailsFetcherChain.loop rest ctx cd tpl
      (ConnectionDetailsFetcherChain.merged outs.*1 all) w1.
Proof.
  revert all w outs.
  induction pre as [|p pre IH]; intros all w outs Hcalls Hok.
  - inversion Hcalls; subst. done.
  - inversion Hcalls as [|? ? ? [conn err] w0 outs' ? Hp Hrest]; subst.
    apply Forall_cons in Hok as [Herr Hok]. simpl in Herr. subst err.
    simpl. unfold bind at 1. rewrite Hp.
    by rewrite (IH _ _ _ Hrest Hok).
Qed.

(** The loop never hands back a nil mapping. *)
Lemma fetcher_loop_non_nil fc ctx cd tpl all w r w' :
  ConnectionDetailsFetcherChain.loop fc ctx cd tpl all w = Ok r w' ->
  exists all', r.1 = Some all'.
Proof.
  revert all w. induction fc as [|p fc IH]; intros all w; simpl.
  - intros [= <- _]. by eexists.
  - unfold bind.
    destruct (FetchConnectionDetails p ctx cd tpl w) as [|[conn [e|]] w0];
      [done| |].
    + intros [= <- _]. by eexists.
    + apply IH.
Qed.

Lemma merged_last_wins Ms k :
  (forall i M v,
      Ms !! i = Some M -> gomap.get M k = Some v ->
      (forall j M', i < j -> Ms !! j = Some M' -> gomap.get M' k = None) ->
      ConnectionDetailsFetcherChain.merged Ms ∅ !! k = Some v)
  /\ ((forall i M, Ms !! i = Some M -> gomap.get M k = None) ->
      ConnectionDetailsFetcherChain.merged Ms ∅ !! k = None).
Proof.
  split.
  - intros i M v. apply merged_lookup_last.
  - intros Hnone. by rewrite merged_lookup_none.
Qed.

(** C4. When the chained fetchers return the mappings [M1..Mn] and no
    error, the chain returns, with no error, the key-wise union of
    [M1..Mn]: a key held by some [Mi] has the value of the highest-indexed
    [Mi] that holds it, and a key held by none is absent. *)
Theorem fetcher_chain_last_wins fc ctx cd tpl w outs w' :
  calls ((fun p => FetchConnectionDetails p ctx cd tpl) <$> fc) w outs w' ->
  no_error outs ->
  exists all,
    ConnectionDetailsFetcherChain.FetchConnectionDetails fc ctx cd tpl w
    = Ok (Some all, None) w'
    /\ forall k,
        (forall i M v,
            outs.*1 !! i = Some M -> gomap.get M k = Some v ->
            (forall j M',
                i < j -> outs.*1 !! j = Some M' -> gomap.get M' k = None) ->
            all !! k = Some v)
        /\ ((forall i M, outs.*1 !! i = Some M -> gomap.get M k = None) ->
            all !! k = None).
Proof.
  intros Hcalls Hok.
  exists (ConnectionDetailsFetcherChain.merged outs.*1 ∅). split.
  - unfold ConnectionDetailsFetcherChain.FetchConnectionDetails.
    rewrite <- (app_nil_r fc).
    by rewrite (fetcher_loop_calls _ _ _ _ _ _ _ _ _ Hcalls Hok).
  - intros k. apply merged_last_wins.
Qed.

(** C1, as amended. When the fetchers before [p] return the mappings
    [M1..M(i-1)] and no error and [p] returns the error [e], the chain
    returns [e] with the merge of [M1..M(i-1)] alone, the mapping the chain
    of the earlier fetchers returns: whatever mapping [p] returned next to
    its error is not merged. *)
Theorem fetcher_chain_error pre p post ctx cd tpl w outs w1 Mi e w2 :
  calls ((fun p => FetchConnectionDetails p ctx cd tpl) <$> pre) w outs w1 ->
  no_error outs ->
  FetchConnectionDetails p ctx cd tpl w1 = Ok (Mi, Some e) w2 ->
  exists all,
    ConnectionDetailsFetcherChain.FetchConnectionDetails
      (pre ++ p :: post) ctx cd tpl w
    = Ok (Some all, Some e) w2
    /\ ConnectionDetailsFetcherChain.FetchConnectionDetails pre ctx cd tpl w
      = Ok (Some all, None) w1
    /\ forall k,
        (forall i M v,
            outs.*1 !! i = Some M -> gomap.get M k = Some v ->
            (forall j M',
                i < j -> outs.*1 !! j = Some M' -> gomap.get M' k = None) ->
            all !! k = Some v)
        /\ ((forall i M, outs.*1 !! i = Some M -> gomap.get M k = None) ->
            all !! k = None).
Proof.
  intros Hcalls Hok Hp.
  exists (ConnectionDetailsFetcherChain.merged outs.*1 ∅).
  unfold ConnectionDetailsFetcherChain.FetchConnectionDetails.
  split; [|split].
  - rewrite (fetcher_loop_calls _ _ _ _ _ _ _ _ _ Hcalls Hok).
    simpl. unfold bind. by rewrite Hp.
  - rewrite <- (app_nil_r pre).
    by rewrite (fetcher_loop_calls _ _ _ _ _ _ _ _ _ Hcalls Hok).
  - intros k. apply merged_last_wins.
Qed.

(** C10. Whenever the chain returns, with or without an error, its mapping
    is not nil; a chain of no fetchers returns the empty mapping; and so
    does a chain all of whose fetchers return nil and no error. *)
Theorem fetcher_chain_non_nil :
  (forall fc ctx cd tpl w r w',
      ConnectionDetailsFetcherChain.FetchConnectionDetails fc ctx cd tpl w
      = Ok r w' ->
      exists all, r.1 = Some all)
  /\ (forall ctx cd tpl w,
        ConnectionDetailsFetcherChain.FetchConnectionDetails
          ([] : list (ConnectionDetailsFetcher World Ctx)) ctx cd tpl w
        = Ok (Some ∅, None) w)
  /\ (forall fc ctx cd tpl w outs w',
        calls ((fun p => FetchConnectionDetails p ctx cd tpl) <$> fc)
          w outs w' ->
        Forall (fun out => out = (None, None)) outs ->
        ConnectionDetailsFetcherChain.FetchConnectionDetails fc ctx cd tpl w
        = Ok (Some ∅, None) w').
Proof.
  split; [|split].
  - intros fc ctx cd tpl w r w'. apply fetcher_loop_non_nil.
  - done.
  - intros fc ctx cd tpl w outs w' Hcalls Hnil.
    assert (no_error outs) as Hok.
    { eapply Forall_impl; [exact Hnil|]. by intros ? ->. }
    unfold ConnectionDetailsFetcherChain.FetchConnectionDetails.
    rewrite <- (app_nil_r fc).
    rewrite (fetcher_loop_calls _ _ _ _ _ _ _ _ _ Hcalls Hok). simpl.
    do 3 f_equal. clear Hcalls Hok.
    induction Hnil as [|out outs -> _ IH]; [done|]. simpl. exact IH.
Qed.

End fetcher_chain.

(** ** The secret store publisher *)

Section secret_store_publisher.
Context {World Ctx : Type}.
Implicit Types (p : @SecretStoreConnectionPublisher.t World Ctx).

Lemma allowed_from (filter : list string) (m0 : gmap string bool) k :
  foldl (fun m key => <[key:=true]> m) m0 filter !! k
  = if decide (k ∈ filter) then Some true else m0 !! k.
Proof.
  revert m0. induction filter as [|key filter IH]; intros m0.
  - destruct (decide (k ∈ [])) as [Hin|_]; [|done].
    by apply elem_of_nil in Hin.
  - cbn [foldl]. rewrite IH.
    destruct (decide (k ∈ filter)) as [Hin|Hnin].
    + destruct (decide (k ∈ key :: filter)) as [_|Hnin]; [done|].
      destruct Hnin. by right.
    + destruct (decide (key = k)) as [->|Hne].
      * rewrite lookup_insert_eq.
        destruct (decide (k ∈ k :: filter)) as [_|Hnin']; [done|].
        destruct Hnin'. by left.
      * rewrite lookup_insert_ne by done.
        destruct (decide (k ∈ key :: filter)) as [Hin|_]; [|done].
        apply elem_of_cons in Hin as [?|?]; congruence.
Qed.

Lemma allowed_lookup (filter : list string) k :
  SecretStoreConnectionPublisher.allowed filter !! k
  = if decide (k ∈ filter) then Some true else None.
Proof.
  unfold SecretStoreConnectionPublisher.allowed.
  by rewrite allowed_from, lookup_empty.
Qed.

Lemma allowed_size (filter : list string) :
  size (SecretStoreConnectionPublisher.allowed filter) = 0 <-> filter = [].
Proof.
  rewrite map_size_empty_iff. split.
  - destruct filter as [|key filter]; [done|]. intros Hempty.
    pose proof (allowed_lookup (key :: filter) key) as Hkey.
    rewrite Hempty, lookup_empty in Hkey.
    by rewrite decide_True in Hkey by left.
  - by intros ->.
Qed.

(** The test [len(m) == 0 || m[key]] of the copying loop. *)
Lemma allowed_test (filter : list string) key :
  (size (SecretStoreConnectionPublisher.allowed filter) =? 0)%nat
  || gomap.index false (Some (SecretStoreConnectionPublisher.allowed filter)) key
  = bool_decide (filter = [] \/ key ∈ filter).
Proof.
  simpl. rewrite allowed_lookup.
  destruct (decide (filter = [])) as [->|Hne].
  - by rewrite bool_decide_eq_true_2 by (by left).
  - assert ((size (SecretStoreConnectionPublisher.allowed filter) =? 0)%nat
            = false) as ->.
    { apply Nat.eqb_neq. by rewrite allowed_size. }
    simpl. destruct (decide (key ∈ filter)) as [Hin|Hnin]; simpl.
    + by rewrite bool_decide_eq_true_2 by (by right).
    + rewrite bool_decide_eq_false_2; [done|]. by intros [?|?].
Qed.

Lemma filtered_lookup (filter : list string) c k :
  SecretStoreConnectionPublisher.filtered
    (SecretStoreConnectionPublisher.allowed filter) c ∅ !! k
  = if decide (filter = [] \/ k ∈ filter) then gomap.get c k else None.
Proof.
  unfold SecretStoreConnectionPublisher.filtered.
  destruct c as [m|].
  - etrans.
    { apply (range_insert_if
        (fun key =>
           (size (SecretStoreConnectionPublisher.allowed filter) =? 0)%nat
           || gomap.index false
                (Some (SecretStoreConnectionPublisher.allowed filter)) key)). }
    rewrite allowed_test. simpl.
    by destruct (decide (filter = [] \/ k ∈ filter)) as [H|H];
      [rewrite bool_decide_eq_true_2|rewrite bool_decide_eq_false_2].
  - simpl. rewrite lookup_empty. by destruct (decide _).
Qed.

(** C3. For an owner with a publish destination, the store is written
    once, with exactly the entries of the details whose key is in the
    filter, or with all of them when the filter is empty; when that write
    returns no error the publisher returns [published = true] and no
    error, and when it returns an error, [false] and the error wrapped. *)
Theorem secret_store_publish_filtered p ctx o c w dest :
  resource.GetPublishConnectionDetailsTo o = Some dest ->
  exists data : gmap string bytes,
    (forall k,
        data !! k =
        if decide (SecretStoreConnectionPublisher.filter p = []
                   \/ k ∈ SecretStoreConnectionPublisher.filter p)
        then gomap.get c k else None)
    /\ SecretStoreConnectionPublisher.PublishConnection p ctx o c w
       = match managed.PublishConnection
                 (SecretStoreConnectionPublisher.publisher p)
                 ctx o (Some data) w with
         | Panic => Panic
         | Ok None w' => Ok (true, None) w'
         | Ok (Some e) w' =>
             Ok (false, Some (errors.Wrapped e errPublish)) w'
         end.
Proof.
  intros Hdest.
  exists (SecretStoreConnectionPublisher.filtered
            (SecretStoreConnectionPublisher.allowed
               (SecretStoreConnectionPublisher.filter p)) c ∅).
  split.
  - intros k. apply filtered_lookup.
  - unfold SecretStoreConnectionPublisher.PublishConnection.
    rewrite Hdest. unfold bind.
    by destruct (managed.PublishConnection _ _ _ _ _) as [|[e|] w'].
Qed.

(** C5. For an owner with no publish destination the publisher returns
    [published = false] and no error, in the world it was called in: the
    underlying publisher is not called. *)
Theorem secret_store_publish_no_destination p ctx o c w :
  resource.GetPublishConnectionDetailsTo o = None ->
  SecretStoreConnectionPublisher.PublishConnection p ctx o c w
  = Ok (false, None) w.
Proof.
  intros Hdest. unfold SecretStoreConnectionPublisher.PublishConnection.
  by rewrite Hdest.
Qed.

End secret_store_publisher.

(** ** The secret store fetcher *)

Section secret_store_fetcher.
Context {World Ctx : Type}.
Variable connectionDetailType : v1.ConnectionDetail -> v1.ConnectionDetailType.
Implicit Types (f : @SecretStoreConnectionDetailsFetcher.t World Ctx).
Implicit Types (d : v1.ConnectionDetail) (ds : list v1.ConnectionDetail).
Implicit Types (conn : gmap string bytes).

(** A from-secret-key declaration without its source key makes the loop
    return the missing key error, wherever it stands in the template. *)
Lemma loop_missing_key data ds conn d :
  d ∈ ds ->
  connectionDetailType d = v1.ConnectionDetailTypeFromConnectionSecretKey ->
  v1.FromConnectionSecretKey d = None ->
  SecretStoreConnectionDetailsFetcher.loop connectionDetailType data ds conn
  = inr (errors.Errorf errFmtConnDetailKey
           v1.ConnectionDetailTypeFromConnectionSecretKey).
Proof.
  intros Hin Htype Hkey. revert conn.
  induction ds as [|d0 ds IH]; intros conn.
  - by apply elem_of_nil in Hin.
  - apply elem_of_cons in Hin as [<-|Hin].
    + simpl. by rewrite Htype, Hkey.
    + specialize (IH Hin). simpl.
      destruct (connectionDetailType d0) eqn:Htp0; try apply IH.
      destruct (v1.FromConnectionSecretKey d0) as [from|]; [|done].
      destruct (_ || _); [apply IH|].
      destruct (negb _); apply IH.
Qed.

(** When the payload has no value for any source key the template refers
    to, the loop leaves [conn] as it found it, unless it returns the
    missing key error. *)
Lemma loop_lacking data ds conn :
  (forall d from,
      d ∈ ds ->
      connectionDetailType d = v1.ConnectionDetailTypeFromConnectionSecretKey ->
      v1.FromConnectionSecretKey d = Some from ->
      gomap.index None data from = None) ->
  SecretStoreConnectionDetailsFetcher.loop connectionDetailType data ds conn = inl conn
  \/ SecretStoreConnectionDetailsFetcher.loop connectionDetailType data ds conn
     = inr (errors.Errorf errFmtConnDetailKey
           v1.ConnectionDetailTypeFromConnectionSecretKey).
Proof.
  induction ds as [|d0 ds IH]; intros Hlack.
  - by left.
  - specialize (IH (fun d from Hin =>
                      Hlack d from (list_elem_of_further _ _ _ Hin))).
    simpl.
    destruct (connectionDetailType d0) eqn:Htp0; try apply IH.
    destruct (v1.FromConnectionSecretKey d0) as [from|] eqn:Hfrom;
      [|by right].
    rewrite (Hlack d0 from) by (done || by left). simpl.
    rewrite orb_true_r. apply IH.
Qed.

(** Whatever the fetcher returns, its mapping is nil or has an entry. *)
Lemma fetch_not_empty f ctx cd tpl w details err w' :
  SecretStoreConnectionDetailsFetcher.FetchConnectionDetails
    connectionDetailType f ctx cd tpl w = Ok (details, err) w' ->
  details <> Some ∅.
Proof.
  unfold SecretStoreConnectionDetailsFetcher.FetchConnectionDetails.
  destruct cd as [so|uid]; [|done]. unfold bind.
  destruct (managed.FetchConnection _ _ _ _) as [|[data [e|]] w0]; [done| |].
  - by intros [= <- _ _].
  - simpl. destruct (SecretStoreConnectionDetailsFetcher.loop _ _ _ _)
      as [conn|e].
    + destruct (size conn =? 0)%nat eqn:Hsize.
      * by intros [= <- _ _].
      * intros [= <- _ _] [= ->]. by rewrite map_size_empty in Hsize.
    + by intros [= <- _ _].
Qed.

(** A failed read of the store is returned wrapped, before any
    declaration of the template is looked at. *)
Lemma fetch_read_failure f ctx so tpl w data e w' :
  managed.FetchConnection
    (SecretStoreConnectionDetailsFetcher.fetcher f) ctx so w
  = Ok (data, Some e) w' ->
  SecretStoreConnectionDetailsFetcher.FetchConnectionDetails
    connectionDetailType f ctx (resource.ComposedOwner so) tpl w
  = Ok (None, Some (errors.Wrapped e errFetchSecret)) w'.
Proof.
  intros Hfetch.
  unfold SecretStoreConnectionDetailsFetcher.FetchConnectionDetails, bind.
  by rewrite Hfetch.
Qed.

(** C2. With a template of one from-secret-key declaration of source key
    "user" renamed "username" and the store payload
    {"user": "alice", "pass": "x"}, the fetcher returns exactly
    {"username": "alice"} and no error. For every template, the mapping
    returned is never an empty one; it is nil when the store payload is
    absent, and nil when the payload has no value for any source key the
    template refers to. *)
Theorem secret_store_fetch_details :
  (forall f ctx so d w w',
      connectionDetailType d = v1.ConnectionDetailTypeFromConnectionSecretKey ->
      v1.FromConnectionSecretKey d = Some "user" ->
      v1.Name d = Some "username" ->
      managed.FetchConnection
        (SecretStoreConnectionDetailsFetcher.fetcher f) ctx so w
      = Ok (Some (<["user" := bytes_of "alice"]>
                    (<["pass" := bytes_of "x"]> ∅)), None) w' ->
      SecretStoreConnectionDetailsFetcher.FetchConnectionDetails
        connectionDetailType f ctx (resource.ComposedOwner so)
        {| v1.ConnectionDetails := [d] |} w
      = Ok (Some {[ "username" := bytes_of "alice" ]}, None) w')
  /\ (forall f ctx cd tpl w details err w',
        SecretStoreConnectionDetailsFetcher.FetchConnectionDetails
          connectionDetailType f ctx cd tpl w = Ok (details, err) w' ->
        details <> Some ∅)
  /\ (forall f ctx so tpl w w',
        managed.FetchConnection
          (SecretStoreConnectionDetailsFetcher.fetcher f) ctx so w
        = Ok (None, None) w' ->
        exists err,
          SecretStoreConnectionDetailsFetcher.FetchConnectionDetails
            connectionDetailType f ctx (resource.ComposedOwner so) tpl w
          = Ok (None, err) w')
  /\ (forall f ctx so tpl w data w',
        managed.FetchConnection
          (SecretStoreConnectionDetailsFetcher.fetcher f) ctx so w
        = Ok (data, None) w' ->
        (forall d from,
            d ∈ v1.ConnectionDetails tpl ->
            connectionDetailType d
            = v1.ConnectionDetailTypeFromConnectionSecretKey ->
            v1.FromConnectionSecretKey d = Some from ->
            gomap.index None data from = None) ->
        exists err,
          SecretStoreConnectionDetailsFetcher.FetchConnectionDetails
            connectionDetailType f ctx (resource.ComposedOwner so) tpl w
          = Ok (None, err) w').
Proof.
  assert (forall f ctx so tpl w data w',
    managed.FetchConnection
      (SecretStoreConnectionDetailsFetcher.fetcher f) ctx so w
    = Ok (data, None) w' ->
    (forall d from,
        d ∈ v1.ConnectionDetails tpl ->
        connectionDetailType d = v1.ConnectionDetailTypeFromConnectionSecretKey ->
        v1.FromConnectionSecretKey d = Some from ->
        gomap.index None data from = None) ->
    exists err,
      SecretStoreConnectionDetailsFetcher.FetchConnectionDetails
        connectionDetailType f ctx (resource.ComposedOwner so) tpl w
      = Ok (None, err) w') as Hlacking.
  { intros f ctx so tpl w data w' Hfetch Hlack.
    unfold SecretStoreConnectionDetailsFetcher.FetchConnectionDetails, bind.
    rewrite Hfetch.
    destruct (loop_lacking data (v1.ConnectionDetails tpl) ∅ Hlack)
      as [-> | ->].
    - by exists None.
    - by eexists. }
  split; [|split; [|split]].
  - intros f ctx so d w w' Htype Hfrom Hname Hfetch.
    unfold SecretStoreConnectionDetailsFetcher.FetchConnectionDetails, bind.
    rewrite Hfetch. simpl. rewrite Htype, Hfrom, Hname.
    vm_compute. reflexivity.
  - apply fetch_not_empty.
  - intros f ctx so tpl w w' Hfetch. by apply (Hlacking _ _ _ _ _ None).
  - exact Hlacking.
Qed.

(** C9. For a template that holds a from-secret-key declaration with no
    source key, the fetcher, once the store read has returned without an
    error, returns nil details and the missing key error, which carries
    the type of the declaration. *)
Theorem secret_store_fetch_missing_key f ctx so tpl d w data w' :
  d ∈ v1.ConnectionDetails tpl ->
  connectionDetailType d = v1.ConnectionDetailTypeFromConnectionSecretKey ->
  v1.FromConnectionSecretKey d = None ->
  managed.FetchConnection
    (SecretStoreConnectionDetailsFetcher.fetcher f) ctx so w
  = Ok (data, None) w' ->
  SecretStoreConnectionDetailsFetcher.FetchConnectionDetails
    connectionDetailType f ctx (resource.ComposedOwner so) tpl w
  = Ok (None, Some (errors.Errorf errFmtConnDetailKey (connectionDetailType d)))
      w'.
Proof.
  intros Hin Htype Hkey Hfetch.
  unfold SecretStoreConnectionDetailsFetcher.FetchConnectionDetails, bind.
  rewrite Hfetch.
  by rewrite (loop_missing_key data _ ∅ d Hin Htype Hkey), Htype.
Qed.

End secret_store_fetcher.

(** ** The configurator *)

Section configurator.
Context {World Ctx : Type}.
Variable ToAPIVersionAndKind : schema.GroupVersionKind -> string * string.
Implicit Types (c : @ConnectionDetailsConfigurator.t World Ctx).
Implicit Types (cp : resource.Composite) (comp : v1.Composition).

(** A composite resource of the type the composition is for, and with a
    publish destination, is left as it is: nothing is updated. *)
Lemma configure_destination_set c ctx cp comp w dest :
  ToAPIVersionAndKind (resource.GetObjectKind cp)
  = (v1.APIVersion (v1.CompositeTypeRef (v1.Spec comp)),
     v1.Kind (v1.CompositeTypeRef (v1.Spec comp))) ->
  resource.Composite_GetPublishConnectionDetailsTo cp = Some dest ->
  ConnectionDetailsConfigurator.Configure ToAPIVersionAndKind c ctx cp comp w
  = Ok (None, cp) w.
Proof.
  intros Hkind Hdest. unfold ConnectionDetailsConfigurator.Configure.
  rewrite Hkind, !String.eqb_refl, Hdest. done.
Qed.

(** C7. For a composite resource of the type the composition is for, with
    no publish destination, and a composition that declares a store config,
    [Configure] sets the destination whose name is the UID of the resource
    and whose store reference is named by the composition's store config,
    and hands the resource to the client's update, whose error it returns
    wrapped. A further call on the resource so configured, and on any
    resource of this type that has a destination, is a no-op that returns
    no error and leaves the destination as it is. *)
Theorem configure_sets_destination_once c ctx cp comp w storeConfig :
  ToAPIVersionAndKind (resource.GetObjectKind cp)
  = (v1.APIVersion (v1.CompositeTypeRef (v1.Spec comp)),
     v1.Kind (v1.CompositeTypeRef (v1.Spec comp))) ->
  resource.Composite_GetPublishConnectionDetailsTo cp = None ->
  v1.PublishConnectionDetailsWithStoreConfig (v1.Spec comp) = Some storeConfig ->
  let dest :=
    {| xpv1.Name := resource.GetUID cp;
       xpv1.SecretStoreConfigRef :=
         Some {| xpv1.Reference_Name := storeConfig |} |} in
  let cp1 := resource.SetPublishConnectionDetailsTo cp (Some dest) in
  resource.Composite_GetPublishConnectionDetailsTo cp1 = Some dest
  /\ ConnectionDetailsConfigurator.Configure ToAPIVersionAndKind c ctx cp comp w
     = match client.Update (ConnectionDetailsConfigurator.client c) ctx cp1 w with
       | Panic => Panic
       | Ok (err, cp2) w2 => Ok (errors.Wrap err errUpdateComposite, cp2) w2
       end
  /\ (forall w1,
        ConnectionDetailsConfigurator.Configure
          ToAPIVersionAndKind c ctx cp1 comp w1
        = Ok (None, cp1) w1)
  /\ (forall cp2 w2 dest2,
        ToAPIVersionAndKind (resource.GetObjectKind cp2)
        = (v1.APIVersion (v1.CompositeTypeRef (v1.Spec comp)),
           v1.Kind (v1.CompositeTypeRef (v1.Spec comp))) ->
        resource.Composite_GetPublishConnectionDetailsTo cp2 = Some dest2 ->
        ConnectionDetailsConfigurator.Configure
          ToAPIVersionAndKind c ctx cp2 comp w2
        = Ok (None, cp2) w2).
Proof.
  intros Hkind Hdest Hstore dest cp1.
  split; [done|]. split; [|split].
  - unfold ConnectionDetailsConfigurator.Configure.
    rewrite Hkind, !String.eqb_refl, Hdest, Hstore. simpl. unfold bind.
    by destruct (client.Update _ _ _ _) as [|[err cp2] w2].
  - intros w1. by apply (configure_destination_set _ _ _ _ _ dest).
  - intros cp2 w2 dest2. apply configure_destination_set.
Qed.

(** C8. For a composite resource whose API version and kind are not those
    of the composition's composite type reference, [Configure] returns the
    composition mismatch error and leaves the resource and the world as
    they were: no destination is set and nothing is updated. *)
Theorem configure_composition_mismatch c ctx cp comp w :
  ToAPIVersionAndKind (resource.GetObjectKind cp)
  <> (v1.APIVersion (v1.CompositeTypeRef (v1.Spec comp)),
      v1.Kind (v1.CompositeTypeRef (v1.Spec comp))) ->
  ConnectionDetailsConfigurator.Configure ToAPIVersionAndKind c ctx cp comp w
  = Ok (Some (errors.New errCompositionNotCompatible), cp) w.
Proof.
  intros Hkind. unfold ConnectionDetailsConfigurator.Configure.
  destruct (ToAPIVersionAndKind (resource.GetObjectKind cp))
    as [apiVersion kind].
  destruct (String.eqb_spec
              (v1.APIVersion (v1.CompositeTypeRef (v1.Spec comp))) apiVersion)
    as [Hv|Hv]; [|done].
  destruct (String.eqb_spec
              (v1.Kind (v1.CompositeTypeRef (v1.Spec comp))) kind)
    as [Hk|Hk]; [|done].
  congruence.
Qed.

End configurator.

(** ** The properties at concrete collaborators *)

Section runs.
Import fixtures.

(** Two publishers report [false] and [true]; the third fails, and the
    fourth is not called. *)
Lemma publisher_chain_published_witness :
  calls ((fun p => PublishConnection p tt owner details)
           <$> [counting_publisher (false, None);
                counting_publisher (true, None)])
    0 [(false, None); (true, None)] 2
  /\ no_error [(false, None : error); (true, None)]
  /\ ConnectionPublisherChain.PublishConnection
       [counting_publisher (false, None); counting_publisher (true, None)]
       tt owner details 0
     = Ok (true, None) 2
  /\ ConnectionPublisherChain.PublishConnection
       ([counting_publisher (false, None); counting_publisher (true, None)]
          ++ counting_publisher (false, Some boom)
          :: [counting_publisher (true, None)])
       tt owner details 0
     = Ok (true, Some boom) 3.
Proof.
  assert (calls ((fun p => PublishConnection p tt owner details)
                   <$> [counting_publisher (false, None);
                        counting_publisher (true, None)])
            0 [(false, None); (true, None)] 2) as Hcalls.
  { repeat econstructor. }
  assert (no_error [(false, None : error); (true, None)]) as Hok.
  { repeat constructor. }
  destruct (publisher_chain_published _
              (counting_publisher (false, Some boom))
              [counting_publisher (true, None)] _ _ _ _ _ _ Hcalls Hok)
    as [[published [Hrun Hiff]] Herr].
  destruct (Herr false boom 3 eq_refl) as [published' [Hrun' Hiff']].
  assert (published = true) as ->.
  { apply Hiff. right. by left. }
  assert (published' = true) as ->.
  { apply Hiff'. left. right. by left. }
  done.
Defined.

(** Three fetchers return {a, b}, nil and {b, c}: [b] has the value of the
    third, [a] that of the first, and [d] is absent. *)
Lemma fetcher_chain_last_wins_witness :
  calls ((fun p => FetchConnectionDetails p tt
                     (resource.ComposedOwner owner) (template []))
           <$> [counting_fetcher (ab, None); counting_fetcher (None, None);
                counting_fetcher (bc, None)])
    0 [(ab, None); (None, None); (bc, None)] 3
  /\ no_error [(ab, None : error); (None, None); (bc, None)]
  /\ exists all,
      ConnectionDetailsFetcherChain.FetchConnectionDetails
        [counting_fetcher (ab, None); counting_fetcher (None, None);
         counting_fetcher (bc, None)]
        tt (resource.ComposedOwner owner) (template []) 0
      = Ok (Some all, None) 3
      /\ all !! "a" = Some (bytes_of "1")
      /\ all !! "b" = Some (bytes_of "3")
      /\ all !! "d" = None.
Proof.
  assert (calls ((fun p => FetchConnectionDetails p tt
                             (resource.ComposedOwner owner) (template []))
                   <$> [counting_fetcher (ab, None);
                        counting_fetcher (None, None);
                        counting_fetcher (bc, None)])
            0 [(ab, None); (None, None); (bc, None)] 3) as Hcalls.
  { repeat econstructor. }
  assert (no_error [(ab, None : error); (None, None); (bc, None)]) as Hok.
  { repeat constructor. }
  destruct (fetcher_chain_last_wins _ _ _ _ _ _ _ Hcalls Hok)
    as [all [Hrun Hkeys]].
  split; [exact Hcalls|]. split; [exact Hok|].
  exists all. split; [exact Hrun|]. split; [|split].
  - apply (proj1 (Hkeys "a") 0 ab); [done|done|].
    intros j M' Hlt Hj.
    destruct j as [|[|[|j]]]; [lia| | |done]; by injection Hj as <-.
  - apply (proj1 (Hkeys "b") 2 bc); [done|done|].
    intros j M' Hlt Hj.
    destruct j as [|[|[|j]]]; [lia|lia|lia|done].
  - apply (proj2 (Hkeys "d")).
    intros i M Hi.
    destruct i as [|[|[|i]]]; [| | |done]; by injection Hi as <-.
Defined.

(** A fetcher returns {a, b}; the next returns {b, c} with an error: the
    chain returns the error with {a, b}, and the third is not called. *)
Lemma fetcher_chain_error_witness :
  calls ((fun p => FetchConnectionDetails p tt
                     (resource.ComposedOwner owner) (template []))
           <$> [counting_fetcher (ab, None)])
    0 [(ab, None)] 1
  /\ no_error [(ab, None : error)]
  /\ FetchConnectionDetails (counting_fetcher (bc, Some boom)) tt
       (resource.ComposedOwner owner) (template []) 1
     = Ok (bc, Some boom) 2
  /\ ConnectionDetailsFetcherChain.FetchConnectionDetails
       ([counting_fetcher (ab, None)]
          ++ counting_fetcher (bc, Some boom) :: [counting_fetcher (ab, None)])
       tt (resource.ComposedOwner owner) (template []) 0
     = Ok (ab, Some boom) 2.
Proof.
  assert (calls ((fun p => FetchConnectionDetails p tt
                             (resource.ComposedOwner owner) (template []))
                   <$> [counting_fetcher (ab, None)])
            0 [(ab, None)] 1) as Hcalls.
  { repeat econstructor. }
  assert (no_error [(ab, None : error)]) as Hok.
  { repeat constructor. }
  destruct (fetcher_chain_error _ (counting_fetcher (bc, Some boom))
              [counting_fetcher (ab, None)] _ _ _ _ _ _ bc boom 2
              Hcalls Hok eq_refl)
    as [all [Herr [Hpre _]]].
  split; [exact Hcalls|]. split; [exact Hok|]. split; [done|].
  rewrite Herr. vm_compute in Hpre. injection Hpre as <-.
  vm_compute. reflexivity.
Defined.

(** C1, as stated, fails: when the second fetcher returns {b, c} next to
    its error, the chain does not return the merge of {a, b} and {b, c}. *)
Lemma fetcher_chain_error_counterexample :
  FetchConnectionDetails (counting_fetcher (ab, None)) tt
    (resource.ComposedOwner owner) (template []) 0
  = Ok (ab, None) 1
  /\ FetchConnectionDetails (counting_fetcher (bc, Some boom)) tt
       (resource.ComposedOwner owner) (template []) 1
     = Ok (bc, Some boom) 2
  /\ ConnectionDetailsFetcherChain.FetchConnectionDetails
       [counting_fetcher (ab, None); counting_fetcher (bc, Some boom)]
       tt (resource.ComposedOwner owner) (template []) 0
     <> Ok (Some (ConnectionDetailsFetcherChain.merged [ab; bc] ∅), Some boom) 2.
Proof.
  split; [done|]. split; [done|].
  intros Heq.
  apply (f_equal (fun r => match r with
                           | Ok (Some all, _) _ => all !! "c"
                           | _ => None
                           end)) in Heq.
  vm_compute in Heq. discriminate Heq.
Qed.

(** The secret store holds {user, pass}: the from-secret-key declaration
    of "user" as "username" gives {username}; an absent payload, and a
    payload without "user", give nil. *)
Lemma secret_store_fetch_details_witness :
  SecretStoreConnectionDetailsFetcher.FetchConnectionDetails declaredType
    {| SecretStoreConnectionDetailsFetcher.fetcher :=
         reading_store (payload, None) |}
    tt (resource.ComposedOwner owner) (template [user_as_username]) 0
  = Ok (Some {[ "username" := bytes_of "alice" ]}, None) 1
  /\ (exists err,
        SecretStoreConnectionDetailsFetcher.FetchConnectionDetails declaredType
          {| SecretStoreConnectionDetailsFetcher.fetcher :=
               reading_store (None, None) |}
          tt (resource.ComposedOwner owner) (template [user_as_username]) 0
        = Ok (None, err) 1)
  /\ (exists err,
        SecretStoreConnectionDetailsFetcher.FetchConnectionDetails declaredType
          {| SecretStoreConnectionDetailsFetcher.fetcher :=
               reading_store (Some {[ "pass" := bytes_of "x" ]}, None) |}
          tt (resource.ComposedOwner owner) (template [user_as_username]) 0
        = Ok (None, err) 1).
Proof.
  destruct (secret_store_fetch_details (World := nat) (Ctx := unit)
              declaredType)
    as [Hexample [_ [Habsent Hlacking]]].
  split; [|split].
  - by apply Hexample.
  - by apply Habsent.
  - apply (Hlacking _ _ _ _ _ (Some {[ "pass" := bytes_of "x" ]})); [done|].
    intros d from Hin _ Hfrom.
    apply list_elem_of_singleton in Hin as ->.
    by injection Hfrom as <-.
Defined.

(** A template whose second declaration has no source key: the read of the
    store succeeds and the fetcher returns the missing key error. *)
Lemma secret_store_fetch_missing_key_witness :
  no_source_key ∈ v1.ConnectionDetails (template [user_as_username; no_source_key])
  /\ declaredType no_source_key = v1.ConnectionDetailTypeFromConnectionSecretKey
  /\ v1.FromConnectionSecretKey no_source_key = None
  /\ managed.FetchConnection (reading_store (payload, None)) tt owner 0
     = Ok (payload, None) 1
  /\ SecretStoreConnectionDetailsFetcher.FetchConnectionDetails declaredType
       {| SecretStoreConnectionDetailsFetcher.fetcher :=
            reading_store (payload, None) |}
       tt (resource.ComposedOwner owner)
       (template [user_as_username; no_source_key]) 0
     = Ok (None,
           Some (errors.Errorf errFmtConnDetailKey
                   v1.ConnectionDetailTypeFromConnectionSecretKey)) 1.
Proof.
  assert (no_source_key
          ∈ v1.ConnectionDetails (template [user_as_username; no_source_key]))
    as Hin.
  { right. left. }
  split; [exact Hin|]. split; [done|]. split; [done|]. split; [done|].
  by apply (secret_store_fetch_missing_key declaredType
              {| SecretStoreConnectionDetailsFetcher.fetcher :=
                   reading_store (payload, None) |}
              tt owner _ no_source_key 0 payload 1 Hin).
Defined.

(** The filter [host, port] keeps {host, port} of {host, port, password};
    the empty filter keeps all three. *)
Lemma secret_store_publish_filtered_witness :
  resource.GetPublishConnectionDetailsTo owner = Some destination
  /\ SecretStoreConnectionPublisher.PublishConnection
       (SecretStoreConnectionPublisher.NewSecretStoreConnectionPublisher
          recording_store ["host"; "port"])
       tt owner details []
     = Ok (true, None)
         [(owner, Some (<["host" := bytes_of "h"]>
                          (<["port" := bytes_of "5432"]> ∅)))]
  /\ SecretStoreConnectionPublisher.PublishConnection
       (SecretStoreConnectionPublisher.NewSecretStoreConnectionPublisher
          recording_store [])
       tt owner details []
     = Ok (true, None) [(owner, details)].
Proof.
  split; [done|]. split.
  - destruct (secret_store_publish_filtered
                (SecretStoreConnectionPublisher.NewSecretStoreConnectionPublisher
                   recording_store ["host"; "port"])
                tt owner details [] destination eq_refl)
      as [data [Hkeys ->]].
    simpl. do 4 f_equal. apply map_eq. intros k. rewrite Hkeys. simpl.
    destruct (decide (k = "host")) as [->|Hhost]; [done|].
    destruct (decide (k = "port")) as [->|Hport]; [done|].
    destruct (decide _) as [[Hnil|Hin]|_].
    + done.
    + apply elem_of_cons in Hin as [->|Hin]; [done|].
      by apply list_elem_of_singleton in Hin as ->.
    + symmetry. rewrite !lookup_insert_ne by done. apply lookup_empty.
  - destruct (secret_store_publish_filtered
                (SecretStoreConnectionPublisher.NewSecretStoreConnectionPublisher
                   recording_store [])
                tt owner details [] destination eq_refl)
      as [data [Hkeys ->]].
    simpl. do 4 f_equal. apply map_eq. intros k. by rewrite Hkeys.
Defined.

(** An owner with no destination: nothing is written to the store. *)
Lemma secret_store_publish_no_destination_witness :
  resource.GetPublishConnectionDetailsTo opted_out = None
  /\ SecretStoreConnectionPublisher.PublishConnection
       (SecretStoreConnectionPublisher.NewSecretStoreConnectionPublisher
          recording_store ["host"; "port"])
       tt opted_out details []
     = Ok (false, None) [].
Proof.
  split; [done|].
  by apply secret_store_publish_no_destination.
Defined.

(** A composite resource with no destination gets the destination named
    by its UID in the store "vault", and is persisted once; the second call
    changes nothing and persists nothing. *)
Lemma configure_sets_destination_once_witness :
  schema_impl.ToAPIVersionAndKind (resource.GetObjectKind composite)
  = (v1.APIVersion (v1.CompositeTypeRef (v1.Spec (composition "Database"))),
     v1.Kind (v1.CompositeTypeRef (v1.Spec (composition "Database"))))
  /\ resource.Composite_GetPublishConnectionDetailsTo composite = None
  /\ v1.PublishConnectionDetailsWithStoreConfig
       (v1.Spec (composition "Database")) = Some "vault"
  /\ exists cp1,
      resource.Composite_GetPublishConnectionDetailsTo cp1
      = Some {| xpv1.Name := "uid-1";
                xpv1.SecretStoreConfigRef :=
                  Some {| xpv1.Reference_Name := "vault" |} |}
      /\ ConnectionDetailsConfigurator.Configure
           schema_impl.ToAPIVersionAndKind
           (ConnectionDetailsConfigurator.NewConnectionDetailsConfigurator
              persisting_client)
           tt composite (composition "Database") []
         = Ok (None, cp1) [cp1]
      /\ ConnectionDetailsConfigurator.Configure
           schema_impl.ToAPIVersionAndKind
           (ConnectionDetailsConfigurator.NewConnectionDetailsConfigurator
              persisting_client)
           tt cp1 (composition "Database") [cp1]
         = Ok (None, cp1) [cp1].
Proof.
  split; [done|]. split; [done|]. split; [done|].
  destruct (configure_sets_destination_once schema_impl.ToAPIVersionAndKind
              (ConnectionDetailsConfigurator.NewConnectionDetailsConfigurator
                 persisting_client)
              tt composite (composition "Database") [] "vault"
              eq_refl eq_refl eq_refl)
    as [Hdest [Hrun [Hagain _]]].
  eexists. split; [exact Hdest|]. split.
  - rewrite Hrun. reflexivity.
  - apply Hagain.
Defined.

(** A composition for another kind: the mismatch error, and nothing is
    persisted. *)
Lemma configure_composition_mismatch_witness :
  schema_impl.ToAPIVersionAndKind (resource.GetObjectKind composite)
  <> (v1.APIVersion (v1.CompositeTypeRef (v1.Spec (composition "Cache"))),
      v1.Kind (v1.CompositeTypeRef (v1.Spec (composition "Cache"))))
  /\ ConnectionDetailsConfigurator.Configure
       schema_impl.ToAPIVersionAndKind
       (ConnectionDetailsConfigurator.NewConnectionDetailsConfigurator
          persisting_client)
       tt composite (composition "Cache") []
     = Ok (Some (errors.New errCompositionNotCompatible), composite) [].
Proof.
  assert (schema_impl.ToAPIVersionAndKind (resource.GetObjectKind composite)
          <> (v1.APIVersion
                (v1.CompositeTypeRef (v1.Spec (composition "Cache"))),
              v1.Kind (v1.CompositeTypeRef (v1.Spec (composition "Cache")))))
    as Hkind.
  { vm_compute. discriminate. }
  split; [exact Hkind|].
  by apply configure_composition_mismatch.
Defined.

(** The chain of no fetchers, a chain of two fetchers that return nil, and
    the chain of a secret store fetcher that finds nothing and returns nil:
    each returns the empty mapping. *)
Lemma fetcher_chain_non_nil_witness :
  ConnectionDetailsFetcherChain.FetchConnectionDetails
    ([] : list (ConnectionDetailsFetcher nat unit))
    tt (resource.ComposedOwner owner) (template []) 0
  = Ok (Some ∅, None) 0
  /\ ConnectionDetailsFetcherChain.FetchConnectionDetails
       [counting_fetcher (None, None); counting_fetcher (None, None)]
       tt (resource.ComposedOwner owner) (template []) 0
     = Ok (Some ∅, None) 2
  /\ FetchConnectionDetails
       (SecretStoreConnectionDetailsFetcher.asConnectionDetailsFetcher
          declaredType
          {| SecretStoreConnectionDetailsFetcher.fetcher :=
               reading_store (None, None) |})
       tt (resource.ComposedOwner owner) (template [user_as_username]) 0
     = Ok (None, None) 1
  /\ ConnectionDetailsFetcherChain.FetchConnectionDetails
       [SecretStoreConnectionDetailsFetcher.asConnectionDetailsFetcher
          declaredType
          {| SecretStoreConnectionDetailsFetcher.fetcher :=
               reading_store (None, None) |}]
       tt (resource.ComposedOwner owner) (template [user_as_username]) 0
     = Ok (Some ∅, None) 1.
Proof.
  destruct (fetcher_chain_non_nil (World := nat) (Ctx := unit))
    as [_ [Hnone Hnil]].
  split; [apply Hnone|]. split; [|split; [done|]].
  - apply (Hnil _ _ _ _ _ [(None, None); (None, None)]).
    + repeat econstructor.
    + repeat constructor.
  - apply (Hnil _ _ _ _ _ [(None, None)]).
    + repeat econstructor.
    + repeat constructor.
Defined.

End runs.

(** * Further properties *)

(** ** The publisher chain *)

Section publisher_chain_more.
Context {World Ctx : Type}.
Implicit Types (pc pre post : list (ConnectionPublisher World Ctx)).
Implicit Types (outs : list (bool * error)).

(** The loop entered with [published] returns what the loop entered with
    [false] returns, or [true] when [published] is. *)
Lemma publisher_loop_from pc ctx o c published w :
  ConnectionPublisherChain.loop pc ctx o c published w
  = match ConnectionPublisherChain.loop pc ctx o c false w with
    | Panic => Panic
    | Ok (pb, err) w' => Ok (published || pb, err) w'
    end.
Proof.
  revert published w. induction pc as [|p pc IH]; intros published w; simpl.
  - unfold ret. by rewrite orb_false_r.
  - unfold bind. destruct (PublishConnection p ctx o c w) as [|[pb0 [e|]] w0].
    + done.
    + unfold ret. by destruct pb0, published.
    + rewrite (IH (if pb0 then true else published)).
      rewrite (IH (if pb0 then true else false)).
      destruct (ConnectionPublisherChain.loop pc ctx o c false w0)
        as [|[pb err] w']; [done|].
      by destruct pb0, published, pb.
Qed.



Lemma publisher_loop_inv pc ctx o c acc w published err w' :
  ConnectionPublisherChain.loop pc ctx o c acc w = Ok (published, err) w' ->
  exists pre outs w1,
    calls ((fun p => PublishConnection p ctx o c) <$> pre) w outs w1
    /\ no_error outs
    /\ match err with
       | None =>
           pre = pc /\ w1 = w' /\ published = acc || existsb fst outs
       | Some e =>
           exists p post pb,
             pc = pre ++ p :: post
             /\ PublishConnection p ctx o c w1 = Ok (pb, Some e) w'
             /\ published = acc || existsb fst outs || pb
       end.
Proof.
  revert acc w. induction pc as [|p pc IH]; intros acc w; simpl.
  - intros [= <- <- <-]. exists [], [], w.
    split; [constructor|]. split; [constructor|].
    by rewrite orb_false_r.
  - unfold bind.
    destruct (PublishConnection p ctx o c w) as [|[pb0 [e|]] w0] eqn:Hp;
      [done| |].
    + intros [= <- <- <-]. exists [], [], w.
      split; [constructor|]. split; [constructor|].
      exists p, pc, pb0. split; [done|]. split; [done|].
      by destruct pb0, acc.
    + intros Hloop. apply IH in Hloop as (pre & outs & w1 & Hcalls & Hok & H).
      exists (p :: pre), ((pb0, None) :: outs), w1.
      split; [by econstructor|]. split; [by constructor|].
      destruct err as [e|].
      * destruct H as (p' & post & pb & -> & Hp' & ->).
        exists p', post, pb. split; [done|]. split; [done|].
        simpl. by destruct pb0, acc.
      * destruct H as (-> & -> & ->). split; [done|]. split; [done|].
        simpl. by destruct pb0, acc.
Qed.

(** X2. Whatever the chain returns, its publishers were called in order
    from the first, each in the world the one before left. With no error
    all of them were called and reported no error; an error is the error
    of the first publisher that returned one, as that publisher returned
    it, and in both cases [published] is the disjunction of what the
    publishers called have reported. *)
Theorem publisher_chain_inv pc ctx o c w published err w' :
  ConnectionPublisherChain.PublishConnection pc ctx o c w
  = Ok (published, err) w' ->
  exists pre outs w1,
    calls ((fun p => PublishConnection p ctx o c) <$> pre) w outs w1
    /\ no_error outs
    /\ match err with
       | None => pre = pc /\ w1 = w' /\ published = existsb fst outs
       | Some e =>
           exists p post pb,
             pc = pre ++ p :: post
             /\ PublishConnection p ctx o c w1 = Ok (pb, Some e) w'
             /\ published = existsb fst outs || pb
       end.
Proof.
  intros Hrun. by apply publisher_loop_inv in Hrun.
Qed.

(** X3. A chain of secret store publishers, of any length and with any
    filters, writes nothing for an owner with no publish destination and
    returns [published = false] and no error. *)
Theorem publisher_chain_opted_out
    (ps : list (@SecretStoreConnectionPublisher.t World Ctx)) ctx o c w :
  resource.GetPublishConnectionDetailsTo o = None ->
  ConnectionPublisherChain.PublishConnection
    (SecretStoreConnectionPublisher.asConnectionPublisher <$> ps) ctx o c w
  = Ok (false, None) w.
Proof.
  intros Hdest. unfold ConnectionPublisherChain.PublishConnection.
  induction ps as [|p ps IH]; [done|].
  simpl. unfold bind.
  unfold SecretStoreConnectionPublisher.PublishConnection at 1.
  rewrite Hdest. exact IH.
Qed.

End publisher_chain_more.

(** ** The fetcher chain *)

Section fetcher_chain_more.
Context {World Ctx : Type}.
Implicit Types (fc pre post : list (ConnectionDetailsFetcher World Ctx)).
Implicit Types (outs : list (managed.ConnectionDetails * error)).
Implicit Types (all : gmap string bytes).




Lemma fetcher_loop_inv fc ctx cd tpl all w details err w' :
  ConnectionDetailsFetcherChain.loop fc ctx cd tpl all w
  = Ok (details, err) w' ->
  exists pre outs w1,
    calls ((fun p => FetchConnectionDetails p ctx cd tpl) <$> pre) w outs w1
    /\ no_error outs
    /\ details = Some (ConnectionDetailsFetcherChain.merged outs.*1 all)
    /\ match err with
       | None => pre = fc /\ w1 = w'
       | Some e =>
           exists p post Mi,
             fc = pre ++ p :: post
             /\ FetchConnectionDetails p ctx cd tpl w1 = Ok (Mi, Some e) w'
       end.
Proof.
  revert all w. induction fc as [|p fc IH]; intros all w; simpl.
  - intros [= <- <- <-]. exists [], [], w.
    split; [constructor|]. split; [constructor|]. done.
  - unfold bind.
    destruct (FetchConnectionDetails p ctx cd tpl w) as [|[conn [e|]] w0] eqn:Hp;
      [done| |].
    + intros [= <- <- <-]. exists [], [], w.
      split; [constructor|]. split; [constructor|]. split; [done|].
      by exists p, fc, conn.
    + intros Hloop.
      apply IH in Hloop as (pre & outs & w1 & Hcalls & Hok & -> & H).
      exists (p :: pre), ((conn, None) :: outs), w1.
      split; [by econstructor|]. split; [by constructor|]. split; [done|].
      destruct err as [e|].
      * destruct H as (p' & post & Mi & -> & Hp').
        by exists p', post, Mi.
      * by destruct H as (-> & ->).
Qed.


(** X6. No fetcher takes away what an earlier one gave: a key that some
    fetcher returned without an error is a key of the mapping the chain
    returns, with or without an error. *)
Theorem fetcher_chain_keeps_keys pre rest ctx cd tpl w outs w1 details err w'
    i M k v :
  calls ((fun p => FetchConnectionDetails p ctx cd tpl) <$> pre) w outs w1 ->
  no_error outs ->
  outs.*1 !! i = Some M ->
  gomap.get M k = Some v ->
  ConnectionDetailsFetcherChain.FetchConnectionDetails
    (pre ++ rest) ctx cd tpl w = Ok (details, err) w' ->
  is_Some (gomap.get details k).
Proof.
  intros Hcalls Hok Hi Hk.
  unfold ConnectionDetailsFetcherChain.FetchConnectionDetails.
  rewrite (fetcher_loop_calls _ _ _ _ _ _ _ _ _ Hcalls Hok).
  intros Hloop.
  apply fetcher_loop_inv in Hloop as (pre' & outs' & w2 & _ & _ & -> & _).
  simpl.
  assert (forall Ms all,
    is_Some (all !! k) ->
    is_Some (ConnectionDetailsFetcherChain.merged Ms all !! k)) as Hkeep.
  { induction Ms as [|M0 Ms IH]; intros all Hall; [done|].
    simpl. apply IH. rewrite merge_lookup.
    by destruct (gomap.get M0 k). }
  apply Hkeep.
  revert i Hi. generalize (∅ : gmap string bytes).
  induction (outs.*1) as [|M0 Ms IH]; intros all i Hi; [done|].
  destruct i as [|i]; simpl in *.
  - injection Hi as ->. apply Hkeep. rewrite merge_lookup, Hk. by eexists.
  - by apply (IH _ i).
Qed.

End fetcher_chain_more.

(** ** The secret store publisher *)

Section secret_store_publisher_more.
Context {World Ctx : Type}.
Implicit Types (p : @SecretStoreConnectionPublisher.t World Ctx).
Implicit Types (store : managed.ConnectionPublisher World Ctx).

(** X7. The filter counts as a set: two filters with the same keys, in any
    order and with any repetitions, make the publisher do the same. *)
Theorem secret_store_publish_filter_set store filter1 filter2 ctx o c w :
  (forall k, k ∈ filter1 <-> k ∈ filter2) ->
  SecretStoreConnectionPublisher.PublishConnection
    (SecretStoreConnectionPublisher.NewSecretStoreConnectionPublisher
       store filter1) ctx o c w
  = SecretStoreConnectionPublisher.PublishConnection
      (SecretStoreConnectionPublisher.NewSecretStoreConnectionPublisher
         store filter2) ctx o c w.
Proof.
  intros Hsame.
  assert (filter1 = [] <-> filter2 = []) as Hnil.
  { split; intros ->.
    - destruct filter2 as [|k ?]; [done|].
      destruct (not_elem_of_nil k). apply Hsame. by left.
    - destruct filter1 as [|k ?]; [done|].
      destruct (not_elem_of_nil k). apply Hsame. by left. }
  unfold SecretStoreConnectionPublisher.PublishConnection. simpl.
  destruct (resource.GetPublishConnectionDetailsTo o); [|done].
  assert (SecretStoreConnectionPublisher.filtered
            (SecretStoreConnectionPublisher.allowed filter1) c ∅
          = SecretStoreConnectionPublisher.filtered
              (SecretStoreConnectionPublisher.allowed filter2) c ∅) as ->.
  { apply map_eq. intros k. rewrite !filtered_lookup.
    destruct (decide (filter1 = [] \/ k ∈ filter1)) as [H1|H1];
      destruct (decide (filter2 = [] \/ k ∈ filter2)) as [H2|H2];
      try done.
    - destruct H2. destruct H1 as [H1|H1]; [left|right];
        [by apply Hnil|by apply Hsame].
    - destruct H1. destruct H2 as [H2|H2]; [left|right];
        [by apply Hnil|by apply Hsame]. }
  done.
Qed.

(** X8. When no entry of the details passes the filter, and so when the
    details are nil or empty, the store is still written for an owner with
    a destination: with an empty payload that is not nil, and the publisher
    returns [published = true] when that write returns no error. *)
Theorem secret_store_publish_nothing p ctx o c w dest :
  resource.GetPublishConnectionDetailsTo o = Some dest ->
  (forall k,
      SecretStoreConnectionPublisher.filter p = []
      \/ k ∈ SecretStoreConnectionPublisher.filter p ->
      gomap.get c k = None) ->
  SecretStoreConnectionPublisher.PublishConnection p ctx o c w
  = match managed.PublishConnection
            (SecretStoreConnectionPublisher.publisher p)
            ctx o (Some ∅) w with
    | Panic => Panic
    | Ok None w' => Ok (true, None) w'
    | Ok (Some e) w' => Ok (false, Some (errors.Wrapped e errPublish)) w'
    end.
Proof.
  intros Hdest Hnone.
  unfold SecretStoreConnectionPublisher.PublishConnection.
  rewrite Hdest. unfold bind.
  assert (SecretStoreConnectionPublisher.filtered
            (SecretStoreConnectionPublisher.allowed
               (SecretStoreConnectionPublisher.filter p)) c ∅ = ∅) as ->.
  { apply map_eq. intros k. rewrite filtered_lookup, lookup_empty.
    destruct (decide _) as [Hk|_]; [by apply Hnone|done]. }
  by destruct (managed.PublishConnection _ _ _ _ _) as [|[e|] w'].
Qed.

(** X9. Whatever the publisher returns, it has called the store at most
    once: not at all for an owner with no destination, where it returns
    [false] and no error; else once, and it returns [true] with no error
    when the store returned none, and [false] with the error of the store,
    wrapped, when it returned one. [published] is never [true] next to an
    error. *)
Theorem secret_store_publish_inv p ctx o c w published err w' :
  SecretStoreConnectionPublisher.PublishConnection p ctx o c w
  = Ok (published, err) w' ->
  (resource.GetPublishConnectionDetailsTo o = None
   /\ published = false /\ err = None /\ w' = w)
  \/ (exists dest data stored,
        resource.GetPublishConnectionDetailsTo o = Some dest
        /\ managed.PublishConnection
             (SecretStoreConnectionPublisher.publisher p)
             ctx o (Some data) w
           = Ok stored w'
        /\ published = match stored with Some _ => false | None => true end
        /\ err = errors.Wrap stored errPublish).
Proof.
  unfold SecretStoreConnectionPublisher.PublishConnection.
  destruct (resource.GetPublishConnectionDetailsTo o) as [dest|].
  - unfold bind.
    destruct (managed.PublishConnection _ _ _ _ _) as [|stored w0] eqn:Hstore;
      [done|].
    intros Hrun. right. exists dest. eexists. exists stored.
    split; [done|].
    destruct stored as [e|]; injection Hrun as <- <- <-; by rewrite Hstore.
  - intros [= <- <- <-]. by left.
Qed.

End secret_store_publisher_more.

(** ** The secret store fetcher *)

Section secret_store_fetcher_more.
Context {World Ctx : Type}.
Variable connectionDetailType : v1.ConnectionDetail -> v1.ConnectionDetailType.
Implicit Types (f : @SecretStoreConnectionDetailsFetcher.t World Ctx).
Implicit Types (d : v1.ConnectionDetail) (ds : list v1.ConnectionDetail).
Implicit Types (conn : gmap string bytes).

(** X10. Whatever the fetcher returns, the composed resource was a
    connection secret owner and the store was read once, which is all the
    fetcher has done. When that read returned an error, the fetcher returns
    nil details and the error wrapped, whatever the template holds. *)
Theorem secret_store_fetch_inv f ctx cd tpl w details err w' :
  SecretStoreConnectionDetailsFetcher.FetchConnectionDetails
    connectionDetailType f ctx cd tpl w = Ok (details, err) w' ->
  exists so data read,
    cd = resource.ComposedOwner so
    /\ managed.FetchConnection
         (SecretStoreConnectionDetailsFetcher.fetcher f) ctx so w
       = Ok (data, read) w'
    /\ forall e,
        read = Some e ->
        details = None /\ err = Some (errors.Wrapped e errFetchSecret).
Proof.
  unfold SecretStoreConnectionDetailsFetcher.FetchConnectionDetails.
  destruct cd as [so|uid]; [|done]. unfold bind.
  destruct (managed.FetchConnection _ _ _ _) as [|[data [e|]] w0] eqn:Hread;
    [done| |].
  - intros [= <- <- <-]. exists so, data, (Some e).
    split; [done|]. split; [done|]. by intros ? [= <-].
  - intros Hrun. exists so, data, None.
    split; [done|]. split; [|done].
    destruct (SecretStoreConnectionDetailsFetcher.loop _ _ _ _) as [conn|e0];
      [destruct (size conn =? 0)%nat|]; by injection Hrun as <- <- <-.
Qed.

(** Every entry the loop leaves was in [conn] or was written for a
    declaration. *)
Lemma loop_entries data ds conn conn' k v :
  SecretStoreConnectionDetailsFetcher.loop connectionDetailType data ds conn
  = inl conn' ->
  conn' !! k = Some v ->
  conn !! k = Some v
  \/ exists d from bs,
      d ∈ ds
      /\ connectionDetailType d = v1.ConnectionDetailTypeFromConnectionSecretKey
      /\ v1.FromConnectionSecretKey d = Some from
      /\ declaration.key d from = k
      /\ k <> ""
      /\ v = Some bs
      /\ gomap.get data from = Some (Some bs).
Proof.
  revert conn. induction ds as [|d0 ds IH]; intros conn; simpl.
  - intros [= <-]. by left.
  - assert (forall conn0,
      (conn0 !! k = Some v ->
       conn !! k = Some v
       \/ exists d from bs,
           d ∈ d0 :: ds
           /\ connectionDetailType d
              = v1.ConnectionDetailTypeFromConnectionSecretKey
           /\ v1.FromConnectionSecretKey d = Some from
           /\ declaration.key d from = k
           /\ k <> ""
           /\ v = Some bs
           /\ gomap.get data from = Some (Some bs)) ->
      SecretStoreConnectionDetailsFetcher.loop
        connectionDetailType data ds conn0 = inl conn' ->
      conn' !! k = Some v ->
      conn !! k = Some v
      \/ exists d from bs,
          d ∈ d0 :: ds
          /\ connectionDetailType d
             = v1.ConnectionDetailTypeFromConnectionSecretKey
          /\ v1.FromConnectionSecretKey d = Some from
          /\ declaration.key d from = k
          /\ k <> ""
          /\ v = Some bs
          /\ gomap.get data from = Some (Some bs)) as Hnext.
    { intros conn0 Hconn0 Hloop Hk.
      destruct (IH _ Hloop Hk) as [Hin0|(d & from & bs & Hd & H)].
      - by apply Hconn0.
      - right. exists d, from, bs. split; [by right|done]. }
    destruct (connectionDetailType d0) eqn:Htp0;
      try (apply Hnext; intros; by left).
    destruct (v1.FromConnectionSecretKey d0) as [from|] eqn:Hfrom; [|done].
    destruct (_ || _) eqn:Hnil; [apply Hnext; intros; by left|].
    apply orb_false_iff in Hnil as [Hdata Hvalue].
    destruct (negb _) eqn:Hkey; [|apply Hnext; intros; by left].
    apply Hnext. intros Hk.
    fold (declaration.key d0 from) in *.
    destruct (decide (declaration.key d0 from = k)) as [Hsame|Hne].
    + right. rewrite Hsame, lookup_insert_eq in Hk. injection Hk as <-.
      destruct data as [m|]; [|done].
      unfold gomap.index, gomap.get in *.
      destruct (_ !! from) as [[bs|]|] eqn:Hm; try done.
      exists d0, from, bs. split; [by left|]. split; [done|].
      split; [done|]. split; [done|]. split; [|done].
      intros ->. rewrite Hsame in Hkey. done.
    + left. by rewrite lookup_insert_ne in Hk.
Qed.

(** X11. Every entry of the mapping the fetcher returns stands for a
    from-secret-key declaration of the template: its key is the name of the
    declaration, or the source key when it has no name, and is not empty;
    its value is the value the store holds under the source key, and is not
    nil. *)
Theorem secret_store_fetch_entries f ctx so tpl w data w' m err k v :
  managed.FetchConnection
    (SecretStoreConnectionDetailsFetcher.fetcher f) ctx so w
  = Ok (data, None) w' ->
  SecretStoreConnectionDetailsFetcher.FetchConnectionDetails
    connectionDetailType f ctx (resource.ComposedOwner so) tpl w
  = Ok (Some m, err) w' ->
  m !! k = Some v ->
  exists d from bs,
    d ∈ v1.ConnectionDetails tpl
    /\ connectionDetailType d = v1.ConnectionDetailTypeFromConnectionSecretKey
    /\ v1.FromConnectionSecretKey d = Some from
    /\ declaration.key d from = k
    /\ k <> ""
    /\ v = Some bs
    /\ gomap.get data from = Some (Some bs).
Proof.
  intros Hread.
  unfold SecretStoreConnectionDetailsFetcher.FetchConnectionDetails, bind.
  rewrite Hread.
  destruct (SecretStoreConnectionDetailsFetcher.loop _ _ _ _)
    as [conn|e0] eqn:Hloop; [|done].
  destruct (size conn =? 0)%nat; [done|].
  intros [= <- _] Hk.
  by destruct (loop_entries _ _ _ _ _ _ Hloop Hk) as [Hempty|H].
Qed.

(** An iteration for a declaration that is not a from-secret-key one
    without a source key goes on to the next declaration. *)
Lemma loop_cons data d ds conn :
  (connectionDetailType d = v1.ConnectionDetailTypeFromConnectionSecretKey ->
   v1.FromConnectionSecretKey d <> None) ->
  SecretStoreConnectionDetailsFetcher.loop
    connectionDetailType data (d :: ds) conn
  = SecretStoreConnectionDetailsFetcher.loop connectionDetailType data ds
      (declaration.written connectionDetailType data d conn).
Proof.
  intros Hwf. simpl.
  unfold declaration.written, declaration.skipped, declaration.key.
  destruct (connectionDetailType d) eqn:Htp; try done.
  destruct (v1.FromConnectionSecretKey d) as [from|]; [|by destruct Hwf].
  destruct data as [m|]; simpl; [|done].
  destruct (SecretStoreConnectionDetailsFetcher.is_nil _); simpl; [done|].
  by destruct (_ =? _).
Qed.

Lemma loop_well_formed data ds conn :
  (forall d,
      d ∈ ds ->
      connectionDetailType d = v1.ConnectionDetailTypeFromConnectionSecretKey ->
      v1.FromConnectionSecretKey d <> None) ->
  SecretStoreConnectionDetailsFetcher.loop connectionDetailType data ds conn
  = inl (foldl (fun conn d =>
                  declaration.written connectionDetailType data d conn)
           conn ds).
Proof.
  revert conn. induction ds as [|d ds IH]; intros conn Hwf; [done|].
  rewrite loop_cons by (apply Hwf; by left).
  rewrite IH; [done|]. intros d' Hin. apply Hwf. by right.
Qed.

(** A declaration that is skipped can be left out of the template. *)
Lemma loop_skipped data ds conn :
  SecretStoreConnectionDetailsFetcher.loop connectionDetailType data ds conn
  = SecretStoreConnectionDetailsFetcher.loop connectionDetailType data
      (List.filter
         (fun d => negb (declaration.skipped connectionDetailType data d)) ds)
      conn.
Proof.
  revert conn. induction ds as [|d ds IH]; intros conn; [done|].
  cbn [List.filter].
  destruct (declaration.skipped connectionDetailType data d) eqn:Hskip;
    cbn [negb].
  - rewrite <- IH. rewrite loop_cons.
    + unfold declaration.written. by rewrite Hskip.
    + intros Htp Hfrom. unfold declaration.skipped in Hskip.
      by rewrite Htp, Hfrom in Hskip.
  - destruct (v1.FromConnectionSecretKey d) as [from|] eqn:Hfrom.
    + rewrite !loop_cons by (by rewrite Hfrom). apply IH.
    + unfold declaration.skipped in Hskip. rewrite Hfrom in Hskip. simpl.
      rewrite Hfrom. by destruct (connectionDetailType d).
Qed.

Lemma written_last data ds conn i d from bs :
  ds !! i = Some d ->
  connectionDetailType d = v1.ConnectionDetailTypeFromConnectionSecretKey ->
  v1.FromConnectionSecretKey d = Some from ->
  gomap.get data from = Some (Some bs) ->
  declaration.key d from <> "" ->
  (forall j d' from',
      i < j -> ds !! j = Some d' ->
      connectionDetailType d'
      = v1.ConnectionDetailTypeFromConnectionSecretKey ->
      v1.FromConnectionSecretKey d' = Some from' ->
      declaration.key d' from' = declaration.key d from ->
      declaration.skipped connectionDetailType data d' = true) ->
  foldl (fun conn d => declaration.written connectionDetailType data d conn)
    conn ds !! declaration.key d from
  = Some (Some bs).
Proof.
  intros Hi Htp Hfrom Hdata Hkey.
  assert (gomap.index None data from = Some bs) as Hindex.
  { destruct data as [m|]; [|done]. simpl in *. by rewrite Hdata. }
  assert (declaration.skipped connectionDetailType data d = false) as Hd.
  { unfold declaration.skipped. rewrite Htp, Hfrom, Hindex. simpl.
    by apply String.eqb_neq. }
  revert conn i Hi. induction ds as [|d0 ds IH]; intros conn i Hi Hlater.
  - done.
  - destruct i as [|i]; simpl in Hi.
    + injection Hi as ->. cbn [foldl].
      assert (declaration.written connectionDetailType data d conn
              !! declaration.key d from = Some (Some bs)) as Hwritten.
      { unfold declaration.written.
        by rewrite Hd, Hfrom, lookup_insert_eq, Hindex. }
      revert Hwritten.
      generalize (declaration.written connectionDetailType data d conn).
      assert (forall j d' from',
        ds !! j = Some d' ->
        connectionDetailType d'
        = v1.ConnectionDetailTypeFromConnectionSecretKey ->
        v1.FromConnectionSecretKey d' = Some from' ->
        declaration.key d' from' = declaration.key d from ->
        declaration.skipped connectionDetailType data d' = true) as Hrest.
      { intros j d' from' Hj. apply (Hlater (S j)); [lia|done]. }
      clear Hlater IH. induction ds as [|d1 ds IH]; intros conn1 H1; [done|].
      cbn [foldl]. apply IH.
      * intros j d' from' Hj. by apply (Hrest (S j)).
      * unfold declaration.written.
        destruct (declaration.skipped connectionDetailType data d1)
          eqn:Hskip1; [done|].
        destruct (v1.FromConnectionSecretKey d1) as [from1|] eqn:Hfrom1;
          [|done].
        destruct (decide (declaration.key d1 from1 = declaration.key d from))
          as [Hsame|Hne]; [|by rewrite lookup_insert_ne].
        assert (connectionDetailType d1
                = v1.ConnectionDetailTypeFromConnectionSecretKey) as Htp1.
        { unfold declaration.skipped in Hskip1.
          by destruct (connectionDetailType d1). }
        by rewrite (Hrest 0 d1 from1 eq_refl Htp1 Hfrom1 Hsame) in Hskip1.
    + cbn [foldl]. apply (IH _ i Hi).
      intros j d' from' Hlt Hj. apply (Hlater (S j)); [lia|done].
Qed.

(** X12. In a template without a from-secret-key declaration that lacks its
    source key, a from-secret-key declaration whose source key has a value
    in the store and whose key is not empty gives the mapping returned an
    entry of that key and that value, unless a later declaration of the
    same key has a value to write: the last one wins. *)
Theorem secret_store_fetch_last_wins f ctx so tpl w data w' i d from bs :
  managed.FetchConnection
    (SecretStoreConnectionDetailsFetcher.fetcher f) ctx so w
  = Ok (data, None) w' ->
  (forall d',
      d' ∈ v1.ConnectionDetails tpl ->
      connectionDetailType d' = v1.ConnectionDetailTypeFromConnectionSecretKey ->
      v1.FromConnectionSecretKey d' <> None) ->
  v1.ConnectionDetails tpl !! i = Some d ->
  connectionDetailType d = v1.ConnectionDetailTypeFromConnectionSecretKey ->
  v1.FromConnectionSecretKey d = Some from ->
  gomap.get data from = Some (Some bs) ->
  declaration.key d from <> "" ->
  (forall j d' from',
      i < j -> v1.ConnectionDetails tpl !! j = Some d' ->
      connectionDetailType d'
      = v1.ConnectionDetailTypeFromConnectionSecretKey ->
      v1.FromConnectionSecretKey d' = Some from' ->
      declaration.key d' from' = declaration.key d from ->
      declaration.skipped connectionDetailType data d' = true) ->
  exists m,
    SecretStoreConnectionDetailsFetcher.FetchConnectionDetails
      connectionDetailType f ctx (resource.ComposedOwner so) tpl w
    = Ok (Some m, None) w'
    /\ m !! declaration.key d from = Some (Some bs).
Proof.
  intros Hread Hwf Hi Htp Hfrom Hdata Hkey Hlater.
  unfold SecretStoreConnectionDetailsFetcher.FetchConnectionDetails, bind.
  rewrite Hread, (loop_well_formed _ _ _ Hwf).
  pose proof (written_last data _ ∅ i d from bs
                Hi Htp Hfrom Hdata Hkey Hlater) as Hlast.
  destruct (size _ =? 0)%nat eqn:Hsize.
  - apply Nat.eqb_eq, map_size_empty_iff in Hsize.
    by rewrite Hsize, lookup_empty in Hlast.
  - by eexists.
Qed.

(** X13. The declarations the loop skips (those of another type than
    from-secret-key, and the from-secret-key ones whose source key has no
    value in the store or whose key is empty) can be left out of the
    template: the fetcher returns the same. *)
Theorem secret_store_fetch_skipped f ctx so tpl w data read w' :
  managed.FetchConnection
    (SecretStoreConnectionDetailsFetcher.fetcher f) ctx so w
  = Ok (data, read) w' ->
  SecretStoreConnectionDetailsFetcher.FetchConnectionDetails
    connectionDetailType f ctx (resource.ComposedOwner so) tpl w
  = SecretStoreConnectionDetailsFetcher.FetchConnectionDetails
      connectionDetailType f ctx (resource.ComposedOwner so)
      {| v1.ConnectionDetails :=
           List.filter
             (fun d => negb (declaration.skipped connectionDetailType data d))
             (v1.ConnectionDetails tpl) |}
      w.
Proof.
  intros Hread.
  unfold SecretStoreConnectionDetailsFetcher.FetchConnectionDetails, bind.
  rewrite Hread. destruct read as [e|]; [done|].
  cbn [v1.ConnectionDetails]. by rewrite <- loop_skipped.
Qed.

(** X14. When the store is read without an error and every declaration of
    the template is one the loop skips, and so for an empty template, the
    fetcher returns nil details and no error. *)
Theorem secret_store_fetch_all_skipped f ctx so tpl w data w' :
  managed.FetchConnection
    (SecretStoreConnectionDetailsFetcher.fetcher f) ctx so w
  = Ok (data, None) w' ->
  (forall d,
      d ∈ v1.ConnectionDetails tpl ->
      declaration.skipped connectionDetailType data d = true) ->
  SecretStoreConnectionDetailsFetcher.FetchConnectionDetails
    connectionDetailType f ctx (resource.ComposedOwner so) tpl w
  = Ok (None, None) w'.
Proof.
  intros Hread Hskip.
  unfold SecretStoreConnectionDetailsFetcher.FetchConnectionDetails, bind.
  rewrite Hread, loop_skipped.
  assert (List.filter
            (fun d => negb (declaration.skipped connectionDetailType data d))
            (v1.ConnectionDetails tpl) = []) as ->.
  { induction (v1.ConnectionDetails tpl) as [|d ds IH]; [done|].
    cbn [List.filter]. rewrite Hskip by left. simpl.
    apply IH. intros d' Hin. apply Hskip. by right. }
  done.
Qed.

End secret_store_fetcher_more.

(** ** The configurator *)

Section configurator_more.
Context {World Ctx : Type}.
Variable ToAPIVersionAndKind : schema.GroupVersionKind -> string * string.
Implicit Types (c : @ConnectionDetailsConfigurator.t World Ctx).
Implicit Types (cp : resource.Composite) (comp : v1.Composition).

(** The test of the type, taken apart. *)
Lemma configure_type_test cp comp :
  (let '(apiVersion, kind) :=
     ToAPIVersionAndKind (resource.GetObjectKind cp) in
   negb (v1.APIVersion (v1.CompositeTypeRef (v1.Spec comp)) =? apiVersion)
   || negb (v1.Kind (v1.CompositeTypeRef (v1.Spec comp)) =? kind))
  = bool_decide
      (ToAPIVersionAndKind (resource.GetObjectKind cp)
       <> (v1.APIVersion (v1.CompositeTypeRef (v1.Spec comp)),
           v1.Kind (v1.CompositeTypeRef (v1.Spec comp)))).
Proof.
  destruct (ToAPIVersionAndKind (resource.GetObjectKind cp))
    as [apiVersion kind].
  destruct (String.eqb_spec
              (v1.APIVersion (v1.CompositeTypeRef (v1.Spec comp))) apiVersion)
    as [Hv|Hv];
    destruct (String.eqb_spec
                (v1.Kind (v1.CompositeTypeRef (v1.Spec comp))) kind)
      as [Hk|Hk]; simpl; symmetry.
  - apply bool_decide_eq_false_2. intros H. apply H. congruence.
  - apply bool_decide_eq_true_2. congruence.
  - apply bool_decide_eq_true_2. congruence.
  - apply bool_decide_eq_true_2. congruence.
Qed.

(** X15. Unless the resource is of the type the composition is for, has no
    publish destination, and the composition declares a store config,
    [Configure] returns the resource and the world as they were, without a
    call of the client; its error is then nil exactly when the resource is
    of the type the composition is for. *)
Theorem configure_untouched c ctx cp comp w :
  ToAPIVersionAndKind (resource.GetObjectKind cp)
  <> (v1.APIVersion (v1.CompositeTypeRef (v1.Spec comp)),
      v1.Kind (v1.CompositeTypeRef (v1.Spec comp)))
  \/ resource.Composite_GetPublishConnectionDetailsTo cp <> None
  \/ v1.PublishConnectionDetailsWithStoreConfig (v1.Spec comp) = None ->
  exists err,
    ConnectionDetailsConfigurator.Configure ToAPIVersionAndKind c ctx cp comp w
    = Ok (err, cp) w
    /\ (err = None <->
        ToAPIVersionAndKind (resource.GetObjectKind cp)
        = (v1.APIVersion (v1.CompositeTypeRef (v1.Spec comp)),
           v1.Kind (v1.CompositeTypeRef (v1.Spec comp)))).
Proof.
  intros Hcase.
  destruct (decide (ToAPIVersionAndKind (resource.GetObjectKind cp)
                    = (v1.APIVersion (v1.CompositeTypeRef (v1.Spec comp)),
                       v1.Kind (v1.CompositeTypeRef (v1.Spec comp)))))
    as [Hkind|Hkind].
  - exists None. split; [|done].
    unfold ConnectionDetailsConfigurator.Configure.
    rewrite Hkind, !String.eqb_refl. simpl.
    destruct Hcase as [?|[Hdest|Hstore]]; [done| |].
    + by destruct (resource.Composite_GetPublishConnectionDetailsTo cp).
    + rewrite Hstore.
      by destruct (resource.Composite_GetPublishConnectionDetailsTo cp).
  - exists (Some (errors.New errCompositionNotCompatible)).
    split; [|done].
    unfold ConnectionDetailsConfigurator.Configure.
    pose proof (configure_type_test cp comp) as Htest.
    rewrite bool_decide_eq_true_2 in Htest by done.
    destruct (ToAPIVersionAndKind (resource.GetObjectKind cp))
      as [apiVersion kind].
    by rewrite Htest.
Qed.

(** X16. When the update of the client fails and leaves the destination on
    the resource, [Configure] returns the error wrapped; a further call on
    the resource returns no error and does not call the client: the update
    that failed is not tried again. *)
Theorem configure_update_failure c ctx cp comp w storeConfig e cp2 w2 dest2 :
  ToAPIVersionAndKind (resource.GetObjectKind cp)
  = (v1.APIVersion (v1.CompositeTypeRef (v1.Spec comp)),
     v1.Kind (v1.CompositeTypeRef (v1.Spec comp))) ->
  resource.Composite_GetPublishConnectionDetailsTo cp = None ->
  v1.PublishConnectionDetailsWithStoreConfig (v1.Spec comp) = Some storeConfig ->
  client.Update (ConnectionDetailsConfigurator.client c) ctx
    (resource.SetPublishConnectionDetailsTo cp
       (Some {| xpv1.Name := resource.GetUID cp;
                xpv1.SecretStoreConfigRef :=
                  Some {| xpv1.Reference_Name := storeConfig |} |})) w
  = Ok (Some e, cp2) w2 ->
  ToAPIVersionAndKind (resource.GetObjectKind cp2)
  = (v1.APIVersion (v1.CompositeTypeRef (v1.Spec comp)),
     v1.Kind (v1.CompositeTypeRef (v1.Spec comp))) ->
  resource.Composite_GetPublishConnectionDetailsTo cp2 = Some dest2 ->
  ConnectionDetailsConfigurator.Configure ToAPIVersionAndKind c ctx cp comp w
  = Ok (Some (errors.Wrapped e errUpdateComposite), cp2) w2
  /\ ConnectionDetailsConfigurator.Configure
       ToAPIVersionAndKind c ctx cp2 comp w2
     = Ok (None, cp2) w2.
Proof.
  intros Hkind Hdest Hstore Hupdate Hkind2 Hdest2. split.
  - unfold ConnectionDetailsConfigurator.Configure.
    rewrite Hkind, !String.eqb_refl, Hdest, Hstore. simpl. unfold bind.
    by rewrite Hupdate.
  - by apply (configure_destination_set _ _ _ _ _ _ dest2).
Qed.

End configurator_more.

(** ** The further properties at concrete collaborators *)

Section runs_more.
Import fixtures fixtures_more.

(** The third publisher of four fails. *)
Lemma publisher_chain_inv_witness :
  ConnectionPublisherChain.PublishConnection
    [counting_publisher (false, None); counting_publisher (true, None);
     counting_publisher (false, Some boom); counting_publisher (true, None)]
    tt owner details 0
  = Ok (true, Some boom) 3
  /\ exists pre outs w1,
      calls ((fun p => PublishConnection p tt owner details) <$> pre) 0 outs w1
      /\ no_error outs
      /\ exists p post pb,
          [counting_publisher (false, None); counting_publisher (true, None);
           counting_publisher (false, Some boom);
           counting_publisher (true, None)]
          = pre ++ p :: post
          /\ PublishConnection p tt owner details w1 = Ok (pb, Some boom) 3
          /\ true = existsb fst outs || pb.
Proof.
  split; [done|].
  by apply (publisher_chain_inv
              [counting_publisher (false, None);
               counting_publisher (true, None);
               counting_publisher (false, Some boom);
               counting_publisher (true, None)]
              tt owner details 0 true (Some boom) 3).
Defined.

(** Two secret store publishers and an owner with no destination. *)
Lemma publisher_chain_opted_out_witness :
  resource.GetPublishConnectionDetailsTo opted_out = None
  /\ ConnectionPublisherChain.PublishConnection
       (SecretStoreConnectionPublisher.asConnectionPublisher
          <$> [SecretStoreConnectionPublisher.NewSecretStoreConnectionPublisher
                 recording_store ["host"];
               SecretStoreConnectionPublisher.NewSecretStoreConnectionPublisher
                 recording_store []])
       tt opted_out details []
     = Ok (false, None) [].
Proof.
  split; [done|].
  by apply publisher_chain_opted_out.
Defined.


(** The key [a] of the first fetcher is kept when the second fails. *)
Lemma fetcher_chain_keeps_keys_witness :
  calls ((fun p => FetchConnectionDetails p tt
                     (resource.ComposedOwner owner) (template []))
           <$> [counting_fetcher (ab, None)])
    0 [(ab, None)] 1
  /\ no_error [(ab, None : error)]
  /\ [(ab, None : error)].*1 !! 0 = Some ab
  /\ gomap.get ab "a" = Some (bytes_of "1")
  /\ ConnectionDetailsFetcherChain.FetchConnectionDetails
       ([counting_fetcher (ab, None)] ++ [counting_fetcher (bc, Some boom)])
       tt (resource.ComposedOwner owner) (template []) 0
     = Ok (ab, Some boom) 2
  /\ is_Some (gomap.get ab "a").
Proof.
  assert (calls ((fun p => FetchConnectionDetails p tt
                             (resource.ComposedOwner owner) (template []))
                   <$> [counting_fetcher (ab, None)])
            0 [(ab, None)] 1) as Hcalls.
  { repeat econstructor. }
  assert (no_error [(ab, None : error)]) as Hok.
  { repeat constructor. }
  assert (ConnectionDetailsFetcherChain.FetchConnectionDetails
            ([counting_fetcher (ab, None)]
               ++ [counting_fetcher (bc, Some boom)])
            tt (resource.ComposedOwner owner) (template []) 0
          = Ok (ab, Some boom) 2) as Hrun.
  { vm_compute. reflexivity. }
  split; [exact Hcalls|]. split; [exact Hok|]. split; [done|].
  split; [done|]. split; [exact Hrun|].
  exact (fetcher_chain_keeps_keys _ _ _ _ _ _ _ _ _ _ _ 0 ab "a"
           (bytes_of "1") Hcalls Hok eq_refl eq_refl Hrun).
Defined.

(** The filters [host, port] and [port, host, port]. *)
Lemma secret_store_publish_filter_set_witness :
  (forall k : string, k ∈ ["host"; "port"] <-> k ∈ ["port"; "host"; "port"])
  /\ SecretStoreConnectionPublisher.PublishConnection
       (SecretStoreConnectionPublisher.NewSecretStoreConnectionPublisher
          recording_store ["host"; "port"])
       tt owner details []
     = SecretStoreConnectionPublisher.PublishConnection
         (SecretStoreConnectionPublisher.NewSecretStoreConnectionPublisher
            recording_store ["port"; "host"; "port"])
         tt owner details [].
Proof.
  assert (forall k : string,
             k ∈ ["host"; "port"] <-> k ∈ ["port"; "host"; "port"]) as Hsame.
  { intros k. rewrite !elem_of_cons. tauto. }
  split; [exact Hsame|].
  by apply secret_store_publish_filter_set.
Defined.

(** Nil details: an empty payload is written. *)
Lemma secret_store_publish_nothing_witness :
  resource.GetPublishConnectionDetailsTo owner = Some destination
  /\ (forall k : string,
        SecretStoreConnectionPublisher.filter
          (SecretStoreConnectionPublisher.NewSecretStoreConnectionPublisher
             recording_store ["host"]) = []
        \/ k ∈ SecretStoreConnectionPublisher.filter
               (SecretStoreConnectionPublisher.NewSecretStoreConnectionPublisher
                  recording_store ["host"]) ->
        gomap.get (None : managed.ConnectionDetails) k = None)
  /\ SecretStoreConnectionPublisher.PublishConnection
       (SecretStoreConnectionPublisher.NewSecretStoreConnectionPublisher
          recording_store ["host"])
       tt owner None []
     = Ok (true, None) [(owner, Some ∅)].
Proof.
  split; [done|]. split; [done|].
  by rewrite (secret_store_publish_nothing
                (SecretStoreConnectionPublisher.NewSecretStoreConnectionPublisher
                   recording_store ["host"])
                tt owner None [] destination eq_refl).
Defined.

(** The write to the store fails. *)
Lemma secret_store_publish_inv_witness :
  SecretStoreConnectionPublisher.PublishConnection
    (SecretStoreConnectionPublisher.NewSecretStoreConnectionPublisher
       (failing_store boom) ["host"])
    tt owner details 0
  = Ok (false, Some (errors.Wrapped boom errPublish)) 1
  /\ ((resource.GetPublishConnectionDetailsTo owner = None
       /\ false = false
       /\ Some (errors.Wrapped boom errPublish) = None
       /\ 1 = 0)
      \/ (exists dest data stored,
            resource.GetPublishConnectionDetailsTo owner = Some dest
            /\ managed.PublishConnection (failing_store boom)
                 tt owner (Some data) 0
               = Ok stored 1
            /\ false = match stored with Some _ => false | None => true end
            /\ Some (errors.Wrapped boom errPublish)
               = errors.Wrap stored errPublish)).
Proof.
  split; [done|].
  by apply (secret_store_publish_inv
              (SecretStoreConnectionPublisher.NewSecretStoreConnectionPublisher
                 (failing_store boom) ["host"])
              tt owner details 0).
Defined.

(** The read of the store fails, and the template has a declaration
    without a source key: the error of the read is returned. *)
Lemma secret_store_fetch_inv_witness :
  SecretStoreConnectionDetailsFetcher.FetchConnectionDetails declaredType
    {| SecretStoreConnectionDetailsFetcher.fetcher :=
         reading_store (payload, Some boom) |}
    tt (resource.ComposedOwner owner) (template [no_source_key]) 0
  = Ok (None, Some (errors.Wrapped boom errFetchSecret)) 1
  /\ exists so data read,
      resource.ComposedOwner owner = resource.ComposedOwner so
      /\ managed.FetchConnection (reading_store (payload, Some boom)) tt so 0
         = Ok (data, read) 1
      /\ forall e,
          read = Some e ->
          (None : managed.ConnectionDetails) = None
          /\ Some (errors.Wrapped boom errFetchSecret)
             = Some (errors.Wrapped e errFetchSecret).
Proof.
  split; [done|].
  by apply (secret_store_fetch_inv declaredType
              {| SecretStoreConnectionDetailsFetcher.fetcher :=
                   reading_store (payload, Some boom) |}
              tt (resource.ComposedOwner owner) (template [no_source_key]) 0).
Defined.

(** The entry [username] of the mapping returned stands for the
    declaration of "user" as "username". *)
Lemma secret_store_fetch_entries_witness :
  managed.FetchConnection (reading_store (payload, None)) tt owner 0
  = Ok (payload, None) 1
  /\ SecretStoreConnectionDetailsFetcher.FetchConnectionDetails declaredType
       {| SecretStoreConnectionDetailsFetcher.fetcher :=
            reading_store (payload, None) |}
       tt (resource.ComposedOwner owner) (template [user_as_username]) 0
     = Ok (Some {[ "username" := bytes_of "alice" ]}, None) 1
  /\ ({[ "username" := bytes_of "alice" ]} : gmap string bytes) !! "username"
     = Some (bytes_of "alice")
  /\ exists d from bs,
      d ∈ v1.ConnectionDetails (template [user_as_username])
      /\ declaredType d = v1.ConnectionDetailTypeFromConnectionSecretKey
      /\ v1.FromConnectionSecretKey d = Some from
      /\ declaration.key d from = "username"
      /\ "username" <> ""
      /\ bytes_of "alice" = Some bs
      /\ gomap.get payload from = Some (Some bs).
Proof.
  assert (SecretStoreConnectionDetailsFetcher.FetchConnectionDetails
            declaredType
            {| SecretStoreConnectionDetailsFetcher.fetcher :=
                 reading_store (payload, None) |}
            tt (resource.ComposedOwner owner) (template [user_as_username]) 0
          = Ok (Some {[ "username" := bytes_of "alice" ]}, None) 1) as Hrun.
  { vm_compute. reflexivity. }
  split; [done|]. split; [exact Hrun|]. split; [done|].
  exact (secret_store_fetch_entries declaredType
           {| SecretStoreConnectionDetailsFetcher.fetcher :=
                reading_store (payload, None) |}
           tt owner (template [user_as_username]) 0 payload 1 _ None
           "username" (bytes_of "alice") eq_refl Hrun eq_refl).
Defined.

(** Three declarations of the key "username": the store has no "token",
    so that the second, of source key "pass", is the last to write. *)
Lemma secret_store_fetch_last_wins_witness :
  managed.FetchConnection (reading_store (payload, None)) tt owner 0
  = Ok (payload, None) 1
  /\ (forall d',
        d' ∈ v1.ConnectionDetails
               (template [user_as_username; pass_as_username;
                          token_as_username]) ->
        declaredType d' = v1.ConnectionDetailTypeFromConnectionSecretKey ->
        v1.FromConnectionSecretKey d' <> None)
  /\ v1.ConnectionDetails
       (template [user_as_username; pass_as_username; token_as_username])
     !! 1 = Some pass_as_username
  /\ declaredType pass_as_username
     = v1.ConnectionDetailTypeFromConnectionSecretKey
  /\ v1.FromConnectionSecretKey pass_as_username = Some "pass"
  /\ gomap.get payload "pass" = Some (Some (list_byte_of_string "x"))
  /\ declaration.key pass_as_username "pass" <> ""
  /\ (forall j d' from',
        1 < j ->
        v1.ConnectionDetails
          (template [user_as_username; pass_as_username; token_as_username])
        !! j = Some d' ->
        declaredType d' = v1.ConnectionDetailTypeFromConnectionSecretKey ->
        v1.FromConnectionSecretKey d' = Some from' ->
        declaration.key d' from' = declaration.key pass_as_username "pass" ->
        declaration.skipped declaredType payload d' = true)
  /\ exists m,
      SecretStoreConnectionDetailsFetcher.FetchConnectionDetails declaredType
        {| SecretStoreConnectionDetailsFetcher.fetcher :=
             reading_store (payload, None) |}
        tt (resource.ComposedOwner owner)
        (template [user_as_username; pass_as_username; token_as_username]) 0
      = Ok (Some m, None) 1
      /\ m !! declaration.key pass_as_username "pass"
         = Some (Some (list_byte_of_string "x")).
Proof.
  assert (forall d',
    d' ∈ v1.ConnectionDetails
           (template [user_as_username; pass_as_username;
                      token_as_username]) ->
    declaredType d' = v1.ConnectionDetailTypeFromConnectionSecretKey ->
    v1.FromConnectionSecretKey d' <> None) as Hwf.
  { intros d' Hin _. simpl in Hin.
    repeat (apply elem_of_cons in Hin as [->|Hin]; [done|]).
    by apply elem_of_nil in Hin. }
  assert (forall j d' from',
    1 < j ->
    v1.ConnectionDetails
      (template [user_as_username; pass_as_username; token_as_username])
    !! j = Some d' ->
    declaredType d' = v1.ConnectionDetailTypeFromConnectionSecretKey ->
    v1.FromConnectionSecretKey d' = Some from' ->
    declaration.key d' from' = declaration.key pass_as_username "pass" ->
    declaration.skipped declaredType payload d' = true) as Hlater.
  { intros j d' from' Hlt Hj _ _ _.
    destruct j as [|[|[|j]]]; [lia|lia| |done].
    by injection Hj as <-. }
  split; [done|]. split; [exact Hwf|]. split; [done|]. split; [done|].
  split; [done|]. split; [done|]. split; [done|]. split; [exact Hlater|].
  exact (secret_store_fetch_last_wins declaredType
           {| SecretStoreConnectionDetailsFetcher.fetcher :=
                reading_store (payload, None) |}
           tt owner
           (template [user_as_username; pass_as_username; token_as_username])
           0 payload 1 1 pass_as_username "pass" (list_byte_of_string "x")
           eq_refl Hwf eq_refl eq_refl eq_refl eq_refl
           ltac:(done) Hlater).
Defined.

(** Of four declarations, those of a field path, of an empty name and of a
    source key the store does not hold can be left out. *)
Lemma secret_store_fetch_skipped_witness :
  managed.FetchConnection (reading_store (payload, None)) tt owner 0
  = Ok (payload, None) 1
  /\ List.filter (fun d => negb (declaration.skipped declaredType payload d))
       [user_from_field_path; user_unnamed; token_as_username;
        user_as_username]
     = [user_as_username]
  /\ SecretStoreConnectionDetailsFetcher.FetchConnectionDetails declaredType
       {| SecretStoreConnectionDetailsFetcher.fetcher :=
            reading_store (payload, None) |}
       tt (resource.ComposedOwner owner)
       (template [user_from_field_path; user_unnamed; token_as_username;
                  user_as_username]) 0
     = SecretStoreConnectionDetailsFetcher.FetchConnectionDetails declaredType
         {| SecretStoreConnectionDetailsFetcher.fetcher :=
              reading_store (payload, None) |}
         tt (resource.ComposedOwner owner)
         {| v1.ConnectionDetails :=
              List.filter
                (fun d => negb (declaration.skipped declaredType payload d))
                (v1.ConnectionDetails
                   (template [user_from_field_path; user_unnamed;
                              token_as_username; user_as_username])) |} 0.
Proof.
  split; [done|]. split; [done|].
  by apply (secret_store_fetch_skipped declaredType
              {| SecretStoreConnectionDetailsFetcher.fetcher :=
                   reading_store (payload, None) |}
              tt owner _ 0 payload None 1).
Defined.

(** A template of declarations that are all skipped. *)
Lemma secret_store_fetch_all_skipped_witness :
  managed.FetchConnection (reading_store (payload, None)) tt owner 0
  = Ok (payload, None) 1
  /\ (forall d,
        d ∈ v1.ConnectionDetails
              (template [user_from_field_path; user_unnamed;
                         token_as_username]) ->
        declaration.skipped declaredType payload d = true)
  /\ SecretStoreConnectionDetailsFetcher.FetchConnectionDetails declaredType
       {| SecretStoreConnectionDetailsFetcher.fetcher :=
            reading_store (payload, None) |}
       tt (resource.ComposedOwner owner)
       (template [user_from_field_path; user_unnamed; token_as_username]) 0
     = Ok (None, None) 1.
Proof.
  assert (forall d,
    d ∈ v1.ConnectionDetails
          (template [user_from_field_path; user_unnamed;
                     token_as_username]) ->
    declaration.skipped declaredType payload d = true) as Hskip.
  { intros d Hin. simpl in Hin.
    repeat (apply elem_of_cons in Hin as [->|Hin]; [done|]).
    by apply elem_of_nil in Hin. }
  split; [done|]. split; [exact Hskip|].
  by apply (secret_store_fetch_all_skipped declaredType
              {| SecretStoreConnectionDetailsFetcher.fetcher :=
                   reading_store (payload, None) |}
              tt owner _ 0 payload 1).
Defined.

(** A composition that declares no store config: nothing is persisted. *)
Lemma configure_untouched_witness :
  (schema_impl.ToAPIVersionAndKind (resource.GetObjectKind composite)
   <> (v1.APIVersion
         (v1.CompositeTypeRef (v1.Spec composition_without_store)),
       v1.Kind (v1.CompositeTypeRef (v1.Spec composition_without_store)))
   \/ resource.Composite_GetPublishConnectionDetailsTo composite <> None
   \/ v1.PublishConnectionDetailsWithStoreConfig
        (v1.Spec composition_without_store) = None)
  /\ exists err,
      ConnectionDetailsConfigurator.Configure
        schema_impl.ToAPIVersionAndKind
        (ConnectionDetailsConfigurator.NewConnectionDetailsConfigurator
           persisting_client)
        tt composite composition_without_store []
      = Ok (err, composite) []
      /\ (err = None <->
          schema_impl.ToAPIVersionAndKind (resource.GetObjectKind composite)
          = (v1.APIVersion
               (v1.CompositeTypeRef (v1.Spec composition_without_store)),
             v1.Kind
               (v1.CompositeTypeRef (v1.Spec composition_without_store)))).
Proof.
  assert (schema_impl.ToAPIVersionAndKind (resource.GetObjectKind composite)
          <> (v1.APIVersion
                (v1.CompositeTypeRef (v1.Spec composition_without_store)),
              v1.Kind
                (v1.CompositeTypeRef (v1.Spec composition_without_store)))
          \/ resource.Composite_GetPublishConnectionDetailsTo composite
             <> None
          \/ v1.PublishConnectionDetailsWithStoreConfig
               (v1.Spec composition_without_store) = None) as Hcase.
  { right. by right. }
  split; [exact Hcase|].
  by apply configure_untouched.
Defined.

(** The update fails: the error is returned wrapped, and the second call
    returns no error without a second update. *)
Lemma configure_update_failure_witness :
  schema_impl.ToAPIVersionAndKind (resource.GetObjectKind composite)
  = (v1.APIVersion (v1.CompositeTypeRef (v1.Spec (composition "Database"))),
     v1.Kind (v1.CompositeTypeRef (v1.Spec (composition "Database"))))
  /\ resource.Composite_GetPublishConnectionDetailsTo composite = None
  /\ v1.PublishConnectionDetailsWithStoreConfig
       (v1.Spec (composition "Database")) = Some "vault"
  /\ exists cp2,
      client.Update (failing_client boom) tt cp2 0 = Ok (Some boom, cp2) 1
      /\ resource.Composite_GetPublishConnectionDetailsTo cp2
         = Some {| xpv1.Name := "uid-1";
                   xpv1.SecretStoreConfigRef :=
                     Some {| xpv1.Reference_Name := "vault" |} |}
      /\ ConnectionDetailsConfigurator.Configure
           schema_impl.ToAPIVersionAndKind
           (ConnectionDetailsConfigurator.NewConnectionDetailsConfigurator
              (failing_client boom))
           tt composite (composition "Database") 0
         = Ok (Some (errors.Wrapped boom errUpdateComposite), cp2) 1
      /\ ConnectionDetailsConfigurator.Configure
           schema_impl.ToAPIVersionAndKind
           (ConnectionDetailsConfigurator.NewConnectionDetailsConfigurator
              (failing_client boom))
           tt cp2 (composition "Database") 1
         = Ok (None, cp2) 1.
Proof.
  split; [done|]. split; [done|]. split; [done|].
  exists (resource.SetPublishConnectionDetailsTo composite
            (Some {| xpv1.Name := "uid-1";
                     xpv1.SecretStoreConfigRef :=
                       Some {| xpv1.Reference_Name := "vault" |} |})).
  split; [reflexivity|]. split; [reflexivity|].
  exact (configure_update_failure schema_impl.ToAPIVersionAndKind
           (ConnectionDetailsConfigurator.NewConnectionDetailsConfigurator
              (failing_client boom))
           tt composite (composition "Database") 0 "vault" boom _ 1 _
           eq_refl eq_refl eq_refl eq_refl eq_refl eq_refl).
Defined.

End runs_more.
